(** * The Order aggregate of the DDD learning repository, embedded in Rocq

    The TypeScript classes [Money], [ProductId], [OrderId], [CustomerId],
    [OrderItem], [Order], [InMemoryOrderRepository], [Email], [Customer] and
    [PricingService] are translated function by function.

    Modelling conventions.
    - A TypeScript [number] is an IEEE 754 binary64 value, a [float] of the
      Standard Library: [+], [-] and [*] round to nearest, ties to even;
      [<], [<=], [>] and [===] are the IEEE comparisons, false as soon as
      an operand is NaN, with 0 and -0 equal. NaN, the infinities, fractions
      and -0 are numbers like the others.
    - A TypeScript [string] is a [string] of ASCII characters; strings with
      other characters are outside the model.
    - [throw new Error(msg)] is [Err e]; the source distinguishes its errors
      by message only, [DomainError] gives each message a name.
    - A method of [Order] mutates [this] and may throw after it has mutated:
      it is a function from the state before the call to an outcome and the
      state after the call, whether the call returned or threw.
    - [new Date()] in [place] is the argument [now]. *)

From Stdlib Require Import ZArith List String Ascii Bool Lia Floats Uint63.
From stdpp Require Import base option list strings gmap.
Import ListNotations.

Local Open Scope Z_scope.

(** ** Numbers *)

Module Math.

(** [Math.floor]: the greatest whole number that is not above [x]. A finite
    number is its mantissa [m] times two to the exponent [e], with the sign
    [s]; when [e] is negative the whole part is the quotient of the signed
    mantissa by [2 ^ (- e)], rounded down, a whole number of fewer than 54
    bits that a binary64 value holds exactly. Zeros, infinities, NaN and
    the numbers with no fractional bit are their own floor. *)
Definition floor (x : float) : float :=
  match Prim2SF x with
  | S754_finite s m e =>
      if 0 <=? e then x
      else
        let n := (if s then Z.neg m else Z.pos m) / 2 ^ (- e) in
        if 0 <=? n then of_uint63 (Uint63.of_Z n)
        else (- of_uint63 (Uint63.of_Z (- n)))%float
  | _ => x
  end.

End Math.

(** The numbers that pass the test [x < 0] of the constructors, read on the
    sign, mantissa and exponent of the number: a zero of either sign, a
    positive number, positive infinity, and NaN. *)
Definition notNegative (x : spec_float) : Prop :=
  match x with
  | S754_infinity true | S754_finite true _ _ => False
  | _ => True
  end.

(** A zero of either sign, or NaN. *)
Definition zeroOrNaN (x : spec_float) : Prop :=
  match x with
  | S754_zero _ | S754_nan => True
  | _ => False
  end.

(** ** Errors and results *)

(** One constructor per thrown message:
    - [InvalidAmount]    : '金額は0以上である必要があります' (Money constructor)
    - [InvalidCurrency]  : '通貨コードは3文字である必要があります' (Money constructor)
    - [CurrencyMismatch] : '異なる通貨の計算はできません: ...' (Money.assertSameCurrency)
    - [NegativeResult]   : '計算結果が負の値になります' (Money.subtract)
    - [InvalidFactor]    : '乗数は0以上である必要があります' (Money.multiply)
    - [InvalidQuantity]  : '数量は1以上である必要があります' (OrderItem)
    - [InvalidState]     : the status guards of Order ('下書き状態の注文のみ変更可能です',
                           '下書き状態の注文のみ確定できます', '確定済みの注文のみ支払い可能です',
                           '支払い済みの注文のみ出荷可能です', '出荷済みの注文のみ配送完了にできます',
                           'この注文はキャンセルできません')
    - [EmptyOrder]       : '商品が選択されていません' (Order.place)
    - [ItemNotFound]     : '指定された商品が見つかりません' (Order.removeItem, changeItemQuantity)
    - [MaxItemsExceeded] : '注文には最大100個まで追加可能です' (Order.addItem)
    - [EmptyIdentifier]  : '...Idは空にできません' (ProductId, OrderId, CustomerId) *)
Inductive DomainError : Type :=
  | InvalidAmount
  | InvalidCurrency
  | CurrencyMismatch
  | NegativeResult
  | InvalidFactor
  | InvalidQuantity
  | InvalidState
  | EmptyOrder
  | ItemNotFound
  | MaxItemsExceeded
  | EmptyIdentifier.

Inductive Result (A : Type) : Type :=
  | Ok (a : A)
  | Err (e : DomainError).
Arguments Ok {A} a.
Arguments Err {A} e.

Definition rbind {A B} (r : Result A) (k : A -> Result B) : Result B :=
  match r with
  | Ok a => k a
  | Err e => Err e
  end.

(** [Array.prototype.reduce] with a callback that may throw: the first throw
    ends the whole reduction. *)
Fixpoint reduce {A B} (f : B -> A -> Result B) (l : list A) (init : B) : Result B :=
  match l with
  | [] => Ok init
  | x :: rest => rbind (f init x) (reduce f rest)
  end.

(** [Array.prototype.map] with a callback that may throw: the first throw
    ends the whole map. *)
Fixpoint mapResult {A B} (f : A -> Result B) (l : list A) : Result (list B) :=
  match l with
  | [] => Ok []
  | x :: rest => rbind (f x) (fun y => rbind (mapResult f rest) (fun ys => Ok (y :: ys)))
  end.

(** [Array.prototype.find] together with the position of the element it
    returns. The element is a reference into the array: a later mutation of
    it is a write at this position. [findIndex] is the position alone. *)
Fixpoint find_from {A} (f : A -> bool) (l : list A) (i : nat) : option (nat * A) :=
  match l with
  | [] => None
  | x :: rest => if f x then Some (i, x) else find_from f rest (S i)
  end.

Definition find {A} (f : A -> bool) (l : list A) : option (nat * A) :=
  find_from f l 0%nat.

Definition findIndex {A} (f : A -> bool) (l : list A) : option nat :=
  fst <$> find f l.

(** [items.splice(index, 1)] *)
Definition splice1 {A} (index : nat) (l : list A) : list A :=
  take index l ++ drop (S index) l.

(** ** Strings of the value objects *)

(** [String.prototype.toUpperCase] on ASCII. *)
Definition upper_ascii (c : ascii) : ascii :=
  let n := nat_of_ascii c in
  if ((97 <=? n) && (n <=? 122))%nat then ascii_of_nat (n - 32) else c.

Fixpoint toUpperCase (s : string) : string :=
  match s with
  | EmptyString => EmptyString
  | String c rest => String (upper_ascii c) (toUpperCase rest)
  end.

(** The ASCII characters that [String.prototype.trim] removes. *)
Definition is_space (c : ascii) : bool :=
  let n := nat_of_ascii c in
  ((n =? 32) || ((9 <=? n) && (n <=? 13)))%nat.

Fixpoint all_space (s : string) : bool :=
  match s with
  | EmptyString => true
  | String c rest => is_space c && all_space rest
  end.

(** [!value || value.trim().length === 0] *)
Definition is_blank (value : string) : bool := all_space value.

(** [String.prototype.toLowerCase] on ASCII. *)
Definition lower_ascii (c : ascii) : ascii :=
  let n := nat_of_ascii c in
  if ((65 <=? n) && (n <=? 90))%nat then ascii_of_nat (n + 32) else c.

Fixpoint toLowerCase (s : string) : string :=
  match s with
  | EmptyString => EmptyString
  | String c rest => String (lower_ascii c) (toLowerCase rest)
  end.

(** [String.prototype.split] with a one-character separator: the pieces
    between the separators, one piece more than there are separators. *)
Fixpoint split (sep : ascii) (s : string) : list string :=
  match s with
  | EmptyString => [EmptyString]
  | String c rest =>
      if Ascii.eqb c sep then EmptyString :: split sep rest
      else match split sep rest with
           | piece :: pieces => String c piece :: pieces
           | [] => [String c EmptyString]
           end
  end.

(** ** Money (src/unnamed/part_005) *)

Module Money.

Record t : Type := mk { amount : float; currency : string }.

(** [constructor(amount, currency = 'JPY')]; an empty [currency] is falsy
    and has not three characters. *)
Definition new (amount : float) (currency : string) : Result t :=
  if (amount <? 0)%float then Err InvalidAmount
  else if negb (String.length currency =? 3)%nat then Err InvalidCurrency
  else Ok (mk amount (toUpperCase currency)).

Definition zero (currency : string) : Result t := new 0 currency.

Definition fromYen (amount : float) : Result t := new amount "JPY".

Definition assertSameCurrency (this other : t) : Result unit :=
  if negb (String.eqb (currency this) (currency other))
  then Err CurrencyMismatch else Ok tt.

Definition add (this other : t) : Result t :=
  rbind (assertSameCurrency this other) (fun _ =>
  new (amount this + amount other)%float (currency this)).

Definition subtract (this other : t) : Result t :=
  rbind (assertSameCurrency this other) (fun _ =>
  let result := (amount this - amount other)%float in
  if (result <? 0)%float then Err NegativeResult
  else new result (currency this)).

Definition multiply (this : t) (multiplier : float) : Result t :=
  if (multiplier <? 0)%float then Err InvalidFactor
  else new (Math.floor (amount this * multiplier)%float) (currency this).

Definition equals (this other : t) : bool :=
  (amount this =? amount other)%float && String.eqb (currency this) (currency other).

(** [this.amount > other.amount] *)
Definition greaterThan (this other : t) : Result bool :=
  rbind (assertSameCurrency this other) (fun _ =>
  Ok (amount other <? amount this)%float).

Definition isZero (this : t) : bool := (amount this =? 0)%float.

(** What the constructor guarantees of every instance: the test
    [amount < 0] fails on its amount (which may be NaN), and its currency
    code has three characters, in upper case. *)
Definition wf (m : t) : Prop :=
  (amount m <? 0)%float = false /\ String.length (currency m) = 3%nat
  /\ toUpperCase (currency m) = currency m.

End Money.

(** ** Identifiers (ProductId in src/unnamed/part_003, OrderId.ts, CustomerId.ts) *)

Module ProductId.
Record t : Type := mk { value : string }.
Definition new (value : string) : Result t :=
  if is_blank value then Err EmptyIdentifier else Ok (mk value).
Definition equals (this other : t) : bool := String.eqb (value this) (value other).
Definition toString (this : t) : string := value this.
End ProductId.

Module OrderId.
Record t : Type := mk { value : string }.
Definition new (value : string) : Result t :=
  if is_blank value then Err EmptyIdentifier else Ok (mk value).
Definition equals (this other : t) : bool := String.eqb (value this) (value other).
Definition toString (this : t) : string := value this.
End OrderId.

Module CustomerId.
Record t : Type := mk { value : string }.
Definition new (value : string) : Result t :=
  if is_blank value then Err EmptyIdentifier else Ok (mk value).
Definition equals (this other : t) : bool := String.eqb (value this) (value other).
Definition toString (this : t) : string := value this.
End CustomerId.

(** ** OrderItem (src/unnamed/part_004) *)

Module OrderItem.

Record t : Type := mk {
  productId : ProductId.t;
  quantity : float;
  unitPrice : Money.t
}.

Definition new (productId : ProductId.t) (quantity : float) (unitPrice : Money.t)
  : Result t :=
  if (quantity <=? 0)%float then Err InvalidQuantity
  else Ok (mk productId quantity unitPrice).

(** The item after [changeQuantity]; on [Err] the item is as it was. *)
Definition changeQuantity (this : t) (newQuantity : float) : Result t :=
  if (newQuantity <=? 0)%float then Err InvalidQuantity
  else Ok (mk (productId this) newQuantity (unitPrice this)).

Definition getSubtotal (this : t) : Result Money.t :=
  Money.multiply (unitPrice this) (quantity this).

Definition hasProduct (this : t) (p : ProductId.t) : bool :=
  ProductId.equals (productId this) p.

Definition getProductId (this : t) : ProductId.t := productId this.
Definition getQuantity (this : t) : float := quantity this.
Definition getUnitPrice (this : t) : Money.t := unitPrice this.

End OrderItem.

(** ** Order (src/unnamed/part_003) *)

Module Order.

Inductive OrderStatus : Type :=
  | DRAFT
  | PLACED
  | PAID
  | SHIPPED
  | DELIVERED
  | CANCELLED.

Definition status_eqb (a b : OrderStatus) : bool :=
  match a, b with
  | DRAFT, DRAFT | PLACED, PLACED | PAID, PAID
  | SHIPPED, SHIPPED | DELIVERED, DELIVERED | CANCELLED, CANCELLED => true
  | _, _ => false
  end.

(** The private fields. [placedAt] is [undefined] until [place] succeeds;
    a [Date] is its time value. *)
Record t : Type := mk {
  id : OrderId.t;
  customerId : CustomerId.t;
  items : list OrderItem.t;
  status : OrderStatus;
  totalAmount : Money.t;
  placedAt : option Z
}.

Definition maxItems : nat := 100.

(** [constructor(id, customerId)]; [create] is this constructor applied to
    a generated identifier. *)
Definition new (id : OrderId.t) (customerId : CustomerId.t) : Result t :=
  rbind (Money.zero "JPY") (fun zero =>
  Ok (mk id customerId [] DRAFT zero None)).

(** *** Methods: state before the call to outcome and state after it *)

Definition Method (A : Type) : Type := t -> Result A * t.

Definition ret {A} (a : A) : Method A := fun this => (Ok a, this).
Definition throw {A} (e : DomainError) : Method A := fun this => (Err e, this).
Definition lift {A} (r : Result A) : Method A := fun this => (r, this).
Definition bind {A B} (m : Method A) (k : A -> Method B) : Method B :=
  fun this =>
    match m this with
    | (Ok a, this') => k a this'
    | (Err e, this') => (Err e, this')
    end.
(** [if (cond) { throw new Error(...) }] *)
Definition throwIf (cond : bool) (e : DomainError) : Method unit :=
  if cond then throw e else ret tt.
Definition read {A} (field : t -> A) : Method A := fun this => (Ok (field this), this).

Definition set_items (l : list OrderItem.t) : Method unit := fun this =>
  (Ok tt, mk (id this) (customerId this) l (status this) (totalAmount this) (placedAt this)).
Definition set_status (s : OrderStatus) : Method unit := fun this =>
  (Ok tt, mk (id this) (customerId this) (items this) s (totalAmount this) (placedAt this)).
Definition set_totalAmount (m : Money.t) : Method unit := fun this =>
  (Ok tt, mk (id this) (customerId this) (items this) (status this) m (placedAt this)).
Definition set_placedAt (d : Z) : Method unit := fun this =>
  (Ok tt, mk (id this) (customerId this) (items this) (status this) (totalAmount this) (Some d)).

Declare Scope method_scope.
Delimit Scope method_scope with method.
Notation "x <- m ;; k" := (bind m (fun x => k))
  (at level 100, m at next level, right associativity) : method_scope.
Notation "m ;; k" := (bind m (fun _ => k))
  (at level 100, right associativity) : method_scope.
Local Open Scope method_scope.

(** [items.reduce((sum, item) => sum.add(item.getSubtotal()), Money.zero())] *)
Definition sumSubtotals (l : list OrderItem.t) : Result Money.t :=
  rbind (Money.zero "JPY") (fun zero =>
  reduce (fun sum item =>
            rbind (OrderItem.getSubtotal item) (fun subtotal =>
            Money.add sum subtotal)) l zero).

Definition recalculateTotal : Method unit :=
  l <- read items ;;
  total <- lift (sumSubtotals l) ;;
  set_totalAmount total.

Definition ensureCanModify : Method unit :=
  s <- read status ;;
  throwIf (negb (status_eqb s DRAFT)) InvalidState.

Definition addItem (productId : ProductId.t) (quantity : float) (unitPrice : Money.t)
  : Method unit :=
  ensureCanModify ;;
  l <- read items ;;
  throwIf (maxItems <=? length l)%nat MaxItemsExceeded ;;
  match find (fun item => OrderItem.hasProduct item productId) l with
  | Some (i, existingItem) =>
      changed <- lift (OrderItem.changeQuantity existingItem
                         (OrderItem.getQuantity existingItem + quantity)%float) ;;
      set_items (<[i := changed]> l)
  | None =>
      newItem <- lift (OrderItem.new productId quantity unitPrice) ;;
      set_items (l ++ [newItem])
  end ;;
  recalculateTotal.

Definition removeItem (productId : ProductId.t) : Method unit :=
  ensureCanModify ;;
  l <- read items ;;
  match findIndex (fun item => OrderItem.hasProduct item productId) l with
  | None => throw ItemNotFound
  | Some idx =>
      set_items (splice1 idx l) ;;
      recalculateTotal
  end.

Definition changeItemQuantity (productId : ProductId.t) (newQuantity : float)
  : Method unit :=
  ensureCanModify ;;
  l <- read items ;;
  match find (fun item => OrderItem.hasProduct item productId) l with
  | None => throw ItemNotFound
  | Some (i, item) =>
      changed <- lift (OrderItem.changeQuantity item newQuantity) ;;
      set_items (<[i := changed]> l) ;;
      recalculateTotal
  end.

Definition place (now : Z) : Method unit :=
  s <- read status ;;
  throwIf (negb (status_eqb s DRAFT)) InvalidState ;;
  l <- read items ;;
  throwIf (length l =? 0)%nat EmptyOrder ;;
  set_status PLACED ;;
  set_placedAt now.

Definition markAsPaid : Method unit :=
  s <- read status ;;
  throwIf (negb (status_eqb s PLACED)) InvalidState ;;
  set_status PAID.

Definition ship : Method unit :=
  s <- read status ;;
  throwIf (negb (status_eqb s PAID)) InvalidState ;;
  set_status SHIPPED.

Definition deliver : Method unit :=
  s <- read status ;;
  throwIf (negb (status_eqb s SHIPPED)) InvalidState ;;
  set_status DELIVERED.

Definition cancel : Method unit :=
  s <- read status ;;
  throwIf (status_eqb s SHIPPED || status_eqb s DELIVERED || status_eqb s CANCELLED)
    InvalidState ;;
  set_status CANCELLED.

Definition getId (this : t) : OrderId.t := id this.
Definition getCustomerId (this : t) : CustomerId.t := customerId this.
Definition getStatus (this : t) : OrderStatus := status this.
Definition getTotalAmount (this : t) : Money.t := totalAmount this.
Definition getPlacedAt (this : t) : option Z := placedAt this.
Definition getItemCount (this : t) : nat := length (items this).
Definition equals (this other : t) : bool := OrderId.equals (id this) (id other).

(** One element of the array [getItems] returns. *)
Record ItemSnapshot : Type := mkSnapshot {
  snapshotProductId : ProductId.t;
  snapshotQuantity : float;
  snapshotUnitPrice : Money.t;
  snapshotSubtotal : Money.t
}.

(** [getItems]: a fresh array of plain records; [getSubtotal] may throw. *)
Definition getItems (this : t) : Result (list ItemSnapshot) :=
  mapResult (fun item =>
               rbind (OrderItem.getSubtotal item) (fun subtotal =>
               Ok (mkSnapshot (OrderItem.getProductId item) (OrderItem.getQuantity item)
                              (OrderItem.getUnitPrice item) subtotal)))
            (items this).

(** *** The public operations as data, and the orders they can produce *)

Inductive Call : Type :=
  | AddItem (productId : ProductId.t) (quantity : float) (unitPrice : Money.t)
  | RemoveItem (productId : ProductId.t)
  | ChangeItemQuantity (productId : ProductId.t) (newQuantity : float)
  | Place (now : Z)
  | MarkAsPaid
  | Ship
  | Deliver
  | Cancel.

Definition call (c : Call) : Method unit :=
  match c with
  | AddItem p q price => addItem p q price
  | RemoveItem p => removeItem p
  | ChangeItemQuantity p q => changeItemQuantity p q
  | Place now => place now
  | MarkAsPaid => markAsPaid
  | Ship => ship
  | Deliver => deliver
  | Cancel => cancel
  end.

Definition isMutation (c : Call) : bool :=
  match c with
  | AddItem _ _ _ | RemoveItem _ | ChangeItemQuantity _ _ => true
  | _ => false
  end.

(** The order after a sequence of calls, a thrown error being caught by the
    caller between two calls. *)
Definition after (cs : list Call) (this : t) : t :=
  fold_left (fun o c => snd (call c o)) cs this.

(** Every order a caller can hold: a new one, or one on which a public
    method has been called (and has returned or thrown). *)
Inductive reachable : t -> Prop :=
  | reachable_new i c o : new i c = Ok o -> reachable o
  | reachable_call c o : reachable o -> reachable (snd (call c o)).

End Order.

(** ** InMemoryOrderRepository (src/step-1-basic-model/src/infrastructure) *)

(** The [Map<string, Order>] as a finite map. The map holds the order it was
    given; the identifier of an order never changes, so what is read back by
    identifier does not depend on later mutations of that order. The
    [async] methods do no asynchronous work: each is its body. *)
Module InMemoryOrderRepository.

Definition save (order : Order.t) (orders : gmap string Order.t)
  : gmap string Order.t :=
  <[OrderId.toString (Order.getId order) := order]> orders.

(** [order || null]: an object is never falsy. *)
Definition findById (id : OrderId.t) (orders : gmap string Order.t)
  : option Order.t :=
  orders !! OrderId.toString id.

Definition delete (id : OrderId.t) (orders : gmap string Order.t)
  : gmap string Order.t :=
  base.delete (OrderId.toString id) orders.

Definition clear (orders : gmap string Order.t) : gmap string Order.t := ∅.

Definition size (orders : gmap string Order.t) : nat := base.size orders.

End InMemoryOrderRepository.

(** ** Email (src/unnamed/part_002) *)

Module Email.

Record t : Type := mk { value : string }.

(** A character of the class [[^\s@]]. *)
Definition plain (c : ascii) : bool := negb (is_space c) && negb (Ascii.eqb c "@").

Fixpoint all_plain (s : string) : bool :=
  match s with
  | EmptyString => true
  | String c rest => plain c && all_plain rest
  end.

(** The string up to its first [@], and the string after it. *)
Fixpoint at_first_at (s : string) : option (string * string) :=
  match s with
  | EmptyString => None
  | String c rest =>
      if Ascii.eqb c "@" then Some (EmptyString, rest)
      else match at_first_at rest with
           | Some (before, after) => Some (String c before, after)
           | None => None
           end
  end.

(** Some dot of the string has a character after it. *)
Fixpoint dot_then_more (s : string) : bool :=
  match s with
  | EmptyString => false
  | String c rest =>
      (Ascii.eqb c "." && negb (String.eqb rest EmptyString)) || dot_then_more rest
  end.

(** [/^[^\s@]+@[^\s@]+\.[^\s@]+$/.test(email)]. Neither class admits [@], so
    the [@] of the pattern is the first one of the string; what follows it
    is made of plain characters, with a dot that is neither its first nor
    its last character. *)
Definition isValid (email : string) : bool :=
  match at_first_at email with
  | None => false
  | Some (local, domain) =>
      negb (String.eqb local EmptyString) && all_plain local
      && all_plain domain
      && match domain with
         | EmptyString => false
         | String _ rest => dot_then_more rest
         end
  end.

(** The constructor; [None] is the thrown '無効なメールアドレス形式'. *)
Definition new (value : string) : option t :=
  if negb (isValid value) then None else Some (mk (toLowerCase value)).

Definition equals (this other : t) : bool := String.eqb (value this) (value other).

(** [this.value.split('@')[1]], [undefined] when there is no second piece. *)
Definition getDomain (this : t) : option string := split "@" (value this) !! 1%nat.

(** [this.value.split('@')[0]]; [split] always returns a first piece. *)
Definition getLocalPart (this : t) : string := hd EmptyString (split "@" (value this)).

Definition toString (this : t) : string := value this.

End Email.

(** ** Customer (src/step-1-basic-model/src/domain/customer/Customer.ts) *)

Module Customer.

Inductive CustomerStatus : Type :=
  | ACTIVE
  | INACTIVE
  | SUSPENDED.

Definition status_eqb (a b : CustomerStatus) : bool :=
  match a, b with
  | ACTIVE, ACTIVE | INACTIVE, INACTIVE | SUSPENDED, SUSPENDED => true
  | _, _ => false
  end.

(** One constructor per thrown message:
    - [SuspendedCustomer]  : '停止中の顧客はメールアドレスを変更できません' (changeEmail)
    - [EmptyName]          : '名前は空にできません' (changeName)
    - [NonPositivePoints]  : 'ポイントは正の値である必要があります' (addLoyaltyPoints),
                             '使用ポイントは正の値である必要があります' (useLoyaltyPoints)
    - [NotActive]          : 'アクティブな顧客のみポイントを追加できます' (addLoyaltyPoints)
    - [InsufficientPoints] : 'ポイントが不足しています' (useLoyaltyPoints) *)
Inductive CustomerError : Type :=
  | SuspendedCustomer
  | EmptyName
  | NonPositivePoints
  | NotActive
  | InsufficientPoints.

Record t : Type := mk {
  id : CustomerId.t;
  name : string;
  email : Email.t;
  status : CustomerStatus;
  loyaltyPoints : float
}.

(** [constructor(id, name, email)]; [create] is this constructor applied to
    a generated identifier. *)
Definition new (id : CustomerId.t) (name : string) (email : Email.t) : t :=
  mk id name email ACTIVE 0.

(** A [void] method: the error it threw, if any, and the customer after the
    call. *)
Definition Method : Type := t -> option CustomerError * t.

Definition changeEmail (newEmail : Email.t) : Method := fun this =>
  if Email.equals (email this) newEmail then (None, this)
  else if status_eqb (status this) SUSPENDED then (Some SuspendedCustomer, this)
  else (None, mk (id this) (name this) newEmail (status this) (loyaltyPoints this)).

Definition changeName (newName : string) : Method := fun this =>
  if is_blank newName then (Some EmptyName, this)
  else (None, mk (id this) newName (email this) (status this) (loyaltyPoints this)).

Definition addLoyaltyPoints (points : float) : Method := fun this =>
  if (points <=? 0)%float then (Some NonPositivePoints, this)
  else if negb (status_eqb (status this) ACTIVE) then (Some NotActive, this)
  else (None, mk (id this) (name this) (email this) (status this)
                 (loyaltyPoints this + points)%float).

Definition useLoyaltyPoints (points : float) : Method := fun this =>
  if (points <=? 0)%float then (Some NonPositivePoints, this)
  else if (loyaltyPoints this <? points)%float then (Some InsufficientPoints, this)
  else (None, mk (id this) (name this) (email this) (status this)
                 (loyaltyPoints this - points)%float).

Definition suspend : Method := fun this =>
  if status_eqb (status this) SUSPENDED then (None, this)
  else (None, mk (id this) (name this) (email this) SUSPENDED (loyaltyPoints this)).

Definition activate : Method := fun this =>
  if status_eqb (status this) ACTIVE then (None, this)
  else (None, mk (id this) (name this) (email this) ACTIVE (loyaltyPoints this)).

Definition equals (this other : t) : bool := CustomerId.equals (id this) (id other).
Definition getId (this : t) : CustomerId.t := id this.
Definition getName (this : t) : string := name this.
Definition getEmail (this : t) : Email.t := email this.
Definition getStatus (this : t) : CustomerStatus := status this.
Definition getLoyaltyPoints (this : t) : float := loyaltyPoints this.
Definition isActive (this : t) : bool := status_eqb (status this) ACTIVE.

Inductive Call : Type :=
  | ChangeEmail (newEmail : Email.t)
  | ChangeName (newName : string)
  | AddLoyaltyPoints (points : float)
  | UseLoyaltyPoints (points : float)
  | Suspend
  | Activate.

Definition call (c : Call) : Method :=
  match c with
  | ChangeEmail e => changeEmail e
  | ChangeName n => changeName n
  | AddLoyaltyPoints p => addLoyaltyPoints p
  | UseLoyaltyPoints p => useLoyaltyPoints p
  | Suspend => suspend
  | Activate => activate
  end.

(** The customer after a sequence of calls, a thrown error being caught by
    the caller between two calls. *)
Definition after (cs : list Call) (this : t) : t :=
  fold_left (fun customer c => snd (call c customer)) cs this.

End Customer.

(** ** PricingService (src/step-1-basic-model/src/domain/order/OrderRepository.ts, second part) *)

Module PricingService.

(** The discount rate is the constant the source leaves it at. *)
Definition calculateDiscount (customer : Customer.t) (order : Order.t) : Result Money.t :=
  if negb (Customer.isActive customer) then Money.zero "JPY"
  else
    let orderAmount := Order.getTotalAmount order in
    let discountRate := 0%float in
    Money.multiply orderAmount discountRate.

Definition calculateShippingFee (order : Order.t) : Result Money.t :=
  rbind (Money.fromYen 5000) (fun FREE_SHIPPING_THRESHOLD =>
  rbind (Money.fromYen 500) (fun STANDARD_SHIPPING_FEE =>
  rbind (Money.greaterThan (Order.getTotalAmount order) FREE_SHIPPING_THRESHOLD)
        (fun above => if above then Money.zero "JPY" else Ok STANDARD_SHIPPING_FEE))).

Definition calculateFinalAmount (customer : Customer.t) (order : Order.t)
  : Result Money.t :=
  let subtotal := Order.getTotalAmount order in
  rbind (calculateDiscount customer order) (fun discount =>
  rbind (calculateShippingFee order) (fun shipping =>
  rbind (Money.subtract subtotal discount) (fun afterDiscount =>
  Money.add afterDiscount shipping))).

End PricingService.

(** ** InMemoryOrderRepository, with the order of insertion *)

(** A JavaScript [Map<string, V>] as the sequence of its entries in the
    order its iterators visit them: [set] on a present key replaces the
    value where it stands, [set] on an absent key appends, [delete] takes
    the entry out. *)
Module JsMap.

Fixpoint set {V} (key : string) (v : V) (m : list (string * V)) : list (string * V) :=
  match m with
  | [] => [(key, v)]
  | (k, old) :: rest =>
      if String.eqb k key then (k, v) :: rest else (k, old) :: set key v rest
  end.

Fixpoint get {V} (key : string) (m : list (string * V)) : option V :=
  match m with
  | [] => None
  | (k, v) :: rest => if String.eqb k key then Some v else get key rest
  end.

Fixpoint delete {V} (key : string) (m : list (string * V)) : list (string * V) :=
  match m with
  | [] => []
  | (k, v) :: rest => if String.eqb k key then rest else (k, v) :: delete key rest
  end.

Definition values {V} (m : list (string * V)) : list V := map snd m.

End JsMap.

(** The repository over such a map: what [InMemoryOrderRepository] above
    forgets is only the order of the entries, which [findByCustomerId]
    shows. *)
Module OrderedRepository.

Definition save (order : Order.t) (orders : list (string * Order.t))
  : list (string * Order.t) :=
  JsMap.set (OrderId.toString (Order.getId order)) order orders.

Definition findById (id : OrderId.t) (orders : list (string * Order.t))
  : option Order.t :=
  JsMap.get (OrderId.toString id) orders.

(** The loop over [this.orders.values()] that pushes every order of the
    customer. *)
Definition findByCustomerId (customerId : CustomerId.t) (orders : list (string * Order.t))
  : list Order.t :=
  List.filter (fun order => CustomerId.equals (Order.getCustomerId order) customerId)
              (JsMap.values orders).

Definition delete (id : OrderId.t) (orders : list (string * Order.t))
  : list (string * Order.t) :=
  JsMap.delete (OrderId.toString id) orders.

Definition clear (orders : list (string * Order.t)) : list (string * Order.t) := [].

Definition size (orders : list (string * Order.t)) : nat := length orders.

(** The calls that change the repository, and the repositories they build
    from the empty one. *)
Inductive Call : Type :=
  | Save (order : Order.t)
  | Delete (id : OrderId.t)
  | Clear.

Definition call (c : Call) (orders : list (string * Order.t)) : list (string * Order.t) :=
  match c with
  | Save order => save order orders
  | Delete id => delete id orders
  | Clear => clear orders
  end.

Definition after (cs : list Call) : list (string * Order.t) :=
  fold_left (fun orders c => call c orders) cs [].

End OrderedRepository.

(** * Vocabulary of the properties *)

(** ** Concrete values used by the examples *)

Definition yen (a : float) : Money.t := Money.mk a "JPY".
Definition usd (a : float) : Money.t := Money.mk a "USD".
Definition P1 : ProductId.t := ProductId.mk "P1".
Definition P2 : ProductId.t := ProductId.mk "P2".

(** [new Order(new OrderId('O1'), new CustomerId('C1'))] *)
Definition order0 : Order.t :=
  Order.mk (OrderId.mk "O1") (CustomerId.mk "C1") [] Order.DRAFT (yen 0) None.

(** ** Orders, items and lists named in the statements *)

(** The order with another status and nothing else changed. *)
Definition withStatus (s : Order.OrderStatus) (o : Order.t) : Order.t :=
  Order.mk (Order.id o) (Order.customerId o) (Order.items o) s
           (Order.totalAmount o) (Order.placedAt o).

(** The order with another item list, or another total, and nothing else
    changed. *)
Definition withItems (l : list OrderItem.t) (o : Order.t) : Order.t :=
  Order.mk (Order.id o) (Order.customerId o) l (Order.status o)
           (Order.totalAmount o) (Order.placedAt o).

Definition withTotal (m : Money.t) (o : Order.t) : Order.t :=
  Order.mk (Order.id o) (Order.customerId o) (Order.items o) (Order.status o)
           m (Order.placedAt o).

(** The item with another quantity. *)
Definition withQuantity (q : float) (it : OrderItem.t) : OrderItem.t :=
  OrderItem.mk (OrderItem.productId it) q (OrderItem.unitPrice it).

(** What a mutation never touches: the identifiers, the status and the
    timestamp. *)
Definition sameFrame (o o' : Order.t) : Prop :=
  Order.id o' = Order.id o /\ Order.customerId o' = Order.customerId o
  /\ Order.status o' = Order.status o /\ Order.placedAt o' = Order.placedAt o.

Definition isPlace (c : Order.Call) : bool :=
  match c with Order.Place _ => true | _ => false end.

(** The order once placed at [now]. *)
Definition placedOrder (now : Z) (o : Order.t) : Order.t :=
  Order.mk (Order.id o) (Order.customerId o) (Order.items o) Order.PLACED
           (Order.totalAmount o) (Some now).

(** The errors thrown ahead of every assignment to a field. *)
Definition raisedBeforeMutation (e : DomainError) : bool :=
  match e with
  | InvalidState | EmptyOrder | ItemNotFound | InvalidQuantity | MaxItemsExceeded => true
  | _ => false
  end.

(** The list changes a mutating call makes once its guards have passed. *)
Inductive items_change : Order.Call -> list OrderItem.t -> list OrderItem.t -> Prop :=
  | change_merge p q price l i it :
      (length l < Order.maxItems)%nat ->
      find (fun item => OrderItem.hasProduct item p) l = Some (i, it) ->
      (OrderItem.quantity it + q <=? 0)%float = false ->
      items_change (Order.AddItem p q price) l
        (<[i := withQuantity (OrderItem.quantity it + q)%float it]> l)
  | change_push p q price l :
      (length l < Order.maxItems)%nat ->
      find (fun item => OrderItem.hasProduct item p) l = None ->
      (q <=? 0)%float = false ->
      items_change (Order.AddItem p q price) l (l ++ [OrderItem.mk p q price])
  | change_remove p l i it :
      find (fun item => OrderItem.hasProduct item p) l = Some (i, it) ->
      items_change (Order.RemoveItem p) l (splice1 i l)
  | change_quantity p q l i it :
      find (fun item => OrderItem.hasProduct item p) l = Some (i, it) ->
      (q <=? 0)%float = false ->
      items_change (Order.ChangeItemQuantity p q) l (<[i := withQuantity q it]> l).

Definition productIds (l : list OrderItem.t) : list ProductId.t :=
  OrderItem.productId <$> l.

(** The subtotal of a line when nothing throws: the product of unit price
    and quantity, rounded down to a whole number, in the currency of the
    price. *)
Definition subtotalOf (it : OrderItem.t) : Money.t :=
  Money.mk (Math.floor (Money.amount (OrderItem.unitPrice it) * OrderItem.quantity it)%float)
           (Money.currency (OrderItem.unitPrice it)).

(** The sum of the subtotals of the lines as the order computes it: the
    amounts of the subtotals added to 0 one after the other, from the first
    line on, each addition rounded as the addition of two numbers is. *)
Definition subtotalSum (l : list OrderItem.t) : float :=
  fold_left (fun sum it => (sum + Money.amount (subtotalOf it))%float) l 0%float.

(** A quantity the OrderItem constructor and changeQuantity let through:
    the test [quantity <= 0] fails on it. *)
Definition validQuantity (q : float) : Prop := (q <=? 0)%float = false.

(** A line as addItem builds it from a yen price. *)
Definition yenLine (it : OrderItem.t) : Prop :=
  validQuantity (OrderItem.quantity it) /\ Money.wf (OrderItem.unitPrice it)
  /\ Money.currency (OrderItem.unitPrice it) = "JPY"%string.

(** A call whose Money argument, if it has one, is a yen amount the
    constructor accepted. *)
Definition yenCall (c : Order.Call) : Prop :=
  match c with
  | Order.AddItem _ _ price => Money.wf price /\ Money.currency price = "JPY"%string
  | _ => True
  end.

(** The total is the yen amount of the sum, and every line is a yen line. *)
Definition totalIsSum (o : Order.t) : Prop :=
  Forall yenLine (Order.items o)
  /\ Order.totalAmount o = yen (subtotalSum (Order.items o)).

(** The errors of Money arithmetic. *)
Definition moneyError (e : DomainError) : bool :=
  match e with
  | InvalidAmount | InvalidCurrency | CurrencyMismatch | NegativeResult | InvalidFactor => true
  | _ => false
  end.

(** Placed orders carry a timestamp and an item; drafts carry no timestamp. *)
Definition placedHasItems (o : Order.t) : Prop :=
  match Order.status o with
  | Order.DRAFT => Order.placedAt o = None
  | Order.CANCELLED => Order.items o <> [] \/ Order.placedAt o = None
  | _ => Order.items o <> [] /\ Order.placedAt o <> None
  end.

(** One hundred products, A0 to J9, and the order that holds one line of
    each: one hundred addItem calls on a new order. *)
Definition hundredProducts : list ProductId.t :=
  flat_map (fun a =>
    map (fun d => ProductId.mk (String a (String d EmptyString)))
        (list_ascii_of_string "0123456789"))
    (list_ascii_of_string "ABCDEFGHIJ").

Definition fullOrder : Order.t :=
  Order.after (map (fun p => Order.AddItem p 1 (yen 10)) hundredProducts) order0.

(** ** Vocabulary of the further properties *)

(** The transitions of the status: the arrows of the state machine. *)
Definition allowedEdge (s s' : Order.OrderStatus) : bool :=
  match s, s' with
  | Order.DRAFT, Order.PLACED
  | Order.PLACED, Order.PAID
  | Order.PAID, Order.SHIPPED
  | Order.SHIPPED, Order.DELIVERED
  | Order.DRAFT, Order.CANCELLED
  | Order.PLACED, Order.CANCELLED
  | Order.PAID, Order.CANCELLED => true
  | _, _ => false
  end.

(** How far along its life an order is. *)
Definition statusRank (s : Order.OrderStatus) : nat :=
  match s with
  | Order.DRAFT => 0
  | Order.PLACED => 1
  | Order.PAID => 2
  | Order.SHIPPED => 3
  | Order.DELIVERED => 4
  | Order.CANCELLED => 5
  end.

(** A line of a quantity the OrderItem constructor accepted, whose unit
    price the Money constructor accepted, in whatever currency. *)
Definition validLine (it : OrderItem.t) : Prop :=
  validQuantity (OrderItem.quantity it) /\ Money.wf (OrderItem.unitPrice it).

(** A call whose Money argument, if it has one, the constructor accepted. *)
Definition validCall (c : Order.Call) : Prop :=
  match c with
  | Order.AddItem _ _ price => Money.wf price
  | _ => True
  end.

(** The record [getItems] builds for a line. *)
Definition snapshotOf (it : OrderItem.t) : Order.ItemSnapshot :=
  Order.mkSnapshot (OrderItem.productId it) (OrderItem.quantity it) (OrderItem.unitPrice it)
    (subtotalOf it).

(** The subtotal amounts of a list of records added to 0 one after the
    other, from the first record on. *)
Definition snapshotSum (l : list Order.ItemSnapshot) : float :=
  fold_left (fun sum s => (sum + Money.amount (Order.snapshotSubtotal s))%float) l 0%float.

(** * Properties *)

(** ** Proof steps shared by the lemmas *)

Ltac unfold_method :=
  unfold Order.call, Order.addItem, Order.removeItem, Order.changeItemQuantity,
    Order.place, Order.markAsPaid, Order.ship, Order.deliver, Order.cancel,
    Order.ensureCanModify, Order.recalculateTotal, Order.throwIf,
    Order.bind, Order.read, Order.lift, Order.throw, Order.ret,
    Order.set_items, Order.set_status, Order.set_totalAmount, Order.set_placedAt
    in *.

Ltac by_status o :=
  destruct o as [i c l s total placed]; destruct s; simpl in *;
  try congruence; try discriminate.

Lemma order0_new :
  rbind (OrderId.new "O1") (fun i =>
  rbind (CustomerId.new "C1") (fun c => Order.new i c)) = Ok order0.
Proof. reflexivity. Qed.

Lemma order0_reachable : Order.reachable order0.
Proof. apply (Order.reachable_new (OrderId.mk "O1") (CustomerId.mk "C1")). reflexivity. Qed.

Lemma reachable_after cs : forall o, Order.reachable o -> Order.reachable (Order.after cs o).
Proof.
  induction cs as [|c cs IH]; intros o Ho; [exact Ho|].
  apply (IH (snd (Order.call c o))). now apply Order.reachable_call.
Qed.

(** *** [find] and [findIndex] *)

Lemma find_from_Some {A} (f : A -> bool) l : forall k i x,
  find_from f l k = Some (i, x) ->
  (k <= i)%nat /\ l !! (i - k)%nat = Some x /\ f x = true
  /\ Forall (fun y => f y = false) (take (i - k) l).
Proof.
  induction l as [|y l IH]; intros k i x H; simpl in H; [discriminate|].
  destruct (f y) eqn:Hy.
  - injection H as <- <-. rewrite Nat.sub_diag. simpl. auto.
  - apply IH in H as (Hle & Hl & Hx & Hall).
    replace (i - k)%nat with (S (i - S k)) by lia.
    simpl. repeat split; auto with lia.
Qed.

Lemma find_Some {A} (f : A -> bool) l i x :
  find f l = Some (i, x) -> l !! i = Some x /\ f x = true.
Proof.
  intros H. apply find_from_Some in H as (_ & Hl & Hx & _).
  rewrite Nat.sub_0_r in Hl. auto.
Qed.

Lemma find_from_None {A} (f : A -> bool) l : forall k,
  find_from f l k = None <-> Forall (fun y => f y = false) l.
Proof.
  induction l as [|y l IH]; intros k; simpl.
  - split; auto.
  - destruct (f y) eqn:Hy.
    + split; [discriminate|]. intros H. inversion H; congruence.
    + rewrite IH. split; [auto|]. intros H. now inversion H.
Qed.

Lemma find_None {A} (f : A -> bool) l :
  find f l = None <-> Forall (fun y => f y = false) l.
Proof. apply find_from_None. Qed.

Lemma findIndex_find {A} (f : A -> bool) l :
  findIndex f l = match find f l with Some (i, _) => Some i | None => None end.
Proof. unfold findIndex. destruct (find f l) as [[i x]|]; reflexivity. Qed.

(** ** Numbers *)

(* [Math.floor] is computed on closed numbers only. *)
Local Arguments Math.floor : simpl never.

Lemma ltb_zero_notNegative x : (x <? 0)%float = false <-> notNegative (Prim2SF x).
Proof.
  rewrite FloatAxioms.ltb_spec. change (Prim2SF 0) with (S754_zero false).
  unfold SFltb.
  destruct (Prim2SF x) as [s|s| |s m e]; simpl; try destruct s; simpl;
    intuition congruence.
Qed.

(** Rounding keeps the sign it is given. *)
Lemma binary_round_aux_sign m e l :
  notNegative (binary_round_aux prec emax false m e l).
Proof.
  unfold binary_round_aux.
  destruct (shr_fexp prec emax m e l) as [mrs' e'].
  destruct (shr_fexp prec emax _ e' loc_Exact) as [mrs'' e''].
  destruct (shr_m mrs''); simpl; auto.
  destruct (e'' <=? emax - prec); simpl; auto.
Qed.

Lemma binary_round_sign m e : notNegative (binary_round prec emax false m e).
Proof.
  unfold binary_round. destruct (shl_align _ _ _) as [mz ez].
  apply binary_round_aux_sign.
Qed.

Lemma binary_normalize_sign m e :
  0 <= m -> notNegative (binary_normalize prec emax m e false).
Proof.
  intros Hm. destruct m as [|p|p]; simpl; [exact I | apply binary_round_sign | lia].
Qed.

Lemma SFmul_sign x y :
  notNegative x -> notNegative y -> notNegative (SFmul prec emax x y).
Proof.
  destruct x as [sx|sx| |sx mx ex], y as [sy|sy| |sy my ey]; simpl;
    try exact (fun _ _ => I);
    try (destruct sx; simpl; try contradiction);
    try (destruct sy; simpl; try contradiction);
    intros _ _; try exact I.
  apply binary_round_aux_sign.
Qed.

Lemma SFadd_sign x y :
  notNegative x -> notNegative y -> notNegative (SFadd prec emax x y).
Proof.
  destruct x as [sx|sx| |sx mx ex], y as [sy|sy| |sy my ey]; simpl;
    try exact (fun _ _ => I);
    try (destruct sx; simpl; try contradiction);
    try (destruct sy; simpl; try contradiction);
    intros _ _; try exact I.
  apply binary_round_sign.
Qed.

(** The sum and the product of two numbers that pass the test [x < 0], and
    the floor of such a number, pass it too. *)
Lemma add_not_negative x y :
  (x <? 0)%float = false -> (y <? 0)%float = false -> (x + y <? 0)%float = false.
Proof. rewrite !ltb_zero_notNegative, FloatAxioms.add_spec. apply SFadd_sign. Qed.

Lemma mul_not_negative x y :
  (x <? 0)%float = false -> (y <? 0)%float = false -> (x * y <? 0)%float = false.
Proof. rewrite !ltb_zero_notNegative, FloatAxioms.mul_spec. apply SFmul_sign. Qed.

Lemma floor_not_negative x :
  (x <? 0)%float = false -> (Math.floor x <? 0)%float = false.
Proof.
  intros Hx. unfold Math.floor.
  destruct (Prim2SF x) as [s|s| |s m e] eqn:Hsf; try exact Hx.
  destruct (0 <=? e) eqn:He; [exact Hx|].
  apply ltb_zero_notNegative in Hx. rewrite Hsf in Hx. destruct s; [contradiction|].
  assert (Hn : 0 <= Z.pos m / 2 ^ (- e))
    by (apply Z.div_pos; [lia | apply Z.pow_pos_nonneg; lia]).
  cbv zeta. destruct (0 <=? Z.pos m / 2 ^ (- e)) eqn:Hle; [|apply Z.leb_gt in Hle; lia].
  apply ltb_zero_notNegative. rewrite of_uint63_spec.
  apply binary_normalize_sign. apply Uint63.to_Z_bounded.
Qed.

(** [Math.floor] on a few numbers. *)
Example floor_examples :
  Math.floor 151.5 = 151%float /\ Math.floor 0.5 = 0%float
  /\ Math.floor (-0.5) = (-1)%float /\ Math.floor (-2.5) = (-3)%float
  /\ Math.floor 7 = 7%float /\ Math.floor (-0) = (-0)%float
  /\ Math.floor 4503599627370495.5 = 4503599627370495%float
  /\ Math.floor nan = nan /\ Math.floor infinity = infinity
  /\ Math.floor neg_infinity = neg_infinity.
Proof. repeat split. Qed.

(** What is not 0 or less is not less than 0. *)
Lemma leb_zero_ltb x : (x <=? 0)%float = false -> (x <? 0)%float = false.
Proof.
  rewrite FloatAxioms.leb_spec, FloatAxioms.ltb_spec. unfold SFleb, SFltb.
  destruct (SFcompare _ _) as [[]|]; congruence.
Qed.

(** ** The methods as equations *)

(* The cap is compared as it stands, never by unfolding one hundred successors. *)
Local Arguments Nat.leb : simpl never.

Ltac unfold_steps :=
  unfold Order.ensureCanModify, Order.throwIf, Order.bind, Order.read,
    Order.lift, Order.throw, Order.ret, Order.set_items, Order.set_status,
    Order.set_totalAmount, Order.set_placedAt in *.

Lemma recalculateTotal_eq o :
  Order.recalculateTotal o =
    match Order.sumSubtotals (Order.items o) with
    | Ok total => (Ok tt, withTotal total o)
    | Err e => (Err e, o)
    end.
Proof.
  unfold Order.recalculateTotal. unfold_steps.
  destruct (Order.sumSubtotals (Order.items o)); reflexivity.
Qed.

Lemma changeQuantity_eq it q :
  OrderItem.changeQuantity it q =
    if (q <=? 0)%float then Err InvalidQuantity else Ok (withQuantity q it).
Proof. reflexivity. Qed.

Lemma addItem_non_draft o p q price :
  Order.status o <> Order.DRAFT -> Order.addItem p q price o = (Err InvalidState, o).
Proof. intros Hs. unfold Order.addItem. unfold_steps. by_status o; reflexivity. Qed.

Lemma removeItem_non_draft o p :
  Order.status o <> Order.DRAFT -> Order.removeItem p o = (Err InvalidState, o).
Proof. intros Hs. unfold Order.removeItem. unfold_steps. by_status o; reflexivity. Qed.

Lemma changeItemQuantity_non_draft o p q :
  Order.status o <> Order.DRAFT ->
  Order.changeItemQuantity p q o = (Err InvalidState, o).
Proof. intros Hs. unfold Order.changeItemQuantity. unfold_steps. by_status o; reflexivity. Qed.

Lemma addItem_draft o p q price :
  Order.status o = Order.DRAFT ->
  Order.addItem p q price o =
    if (Order.maxItems <=? length (Order.items o))%nat then (Err MaxItemsExceeded, o)
    else match find (fun item => OrderItem.hasProduct item p) (Order.items o) with
         | Some (i, existingItem) =>
             if (OrderItem.quantity existingItem + q <=? 0)%float then (Err InvalidQuantity, o)
             else Order.recalculateTotal
                    (withItems (<[i := withQuantity (OrderItem.quantity existingItem + q)%float
                                          existingItem]> (Order.items o)) o)
         | None =>
             if (q <=? 0)%float then (Err InvalidQuantity, o)
             else Order.recalculateTotal
                    (withItems (Order.items o ++ [OrderItem.mk p q price]) o)
         end.
Proof.
  intros Hs. destruct o as [i c l s total placed]. simpl in Hs. subst s.
  unfold Order.addItem, withItems. unfold_steps. simpl.
  destruct (Order.maxItems <=? length l)%nat; [reflexivity|].
  destruct (find _ l) as [[k it]|]; simpl.
  - unfold OrderItem.changeQuantity, OrderItem.getQuantity.
    destruct (OrderItem.quantity it + q <=? 0)%float; reflexivity.
  - unfold OrderItem.new. destruct (q <=? 0)%float; reflexivity.
Qed.

Lemma removeItem_draft o p :
  Order.status o = Order.DRAFT ->
  Order.removeItem p o =
    match find (fun item => OrderItem.hasProduct item p) (Order.items o) with
    | Some (i, _) => Order.recalculateTotal (withItems (splice1 i (Order.items o)) o)
    | None => (Err ItemNotFound, o)
    end.
Proof.
  intros Hs. destruct o as [i c l s total placed]. simpl in Hs. subst s.
  unfold Order.removeItem, withItems. unfold_steps. simpl.
  rewrite findIndex_find.
  destruct (find _ l) as [[k it]|]; reflexivity.
Qed.

Lemma changeItemQuantity_draft o p q :
  Order.status o = Order.DRAFT ->
  Order.changeItemQuantity p q o =
    match find (fun item => OrderItem.hasProduct item p) (Order.items o) with
    | Some (i, item) =>
        if (q <=? 0)%float then (Err InvalidQuantity, o)
        else Order.recalculateTotal
               (withItems (<[i := withQuantity q item]> (Order.items o)) o)
    | None => (Err ItemNotFound, o)
    end.
Proof.
  intros Hs. destruct o as [i c l s total placed]. simpl in Hs. subst s.
  unfold Order.changeItemQuantity, withItems. unfold_steps. simpl.
  destruct (find _ l) as [[k it]|]; simpl; [|reflexivity].
  unfold OrderItem.changeQuantity. destruct (q <=? 0)%float; reflexivity.
Qed.

Lemma status_draft_dec o : {Order.status o = Order.DRAFT} + {Order.status o <> Order.DRAFT}.
Proof. destruct (Order.status o); (left; reflexivity) || (right; discriminate). Qed.

Lemma sameFrame_refl o : sameFrame o o.
Proof. repeat split. Qed.

Lemma recalculateTotal_frame o :
  sameFrame o (snd (Order.recalculateTotal o))
  /\ Order.items (snd (Order.recalculateTotal o)) = Order.items o.
Proof.
  rewrite recalculateTotal_eq.
  destruct (Order.sumSubtotals (Order.items o)); repeat split.
Qed.

Lemma recalculateTotal_withItems_frame l o :
  sameFrame o (snd (Order.recalculateTotal (withItems l o))).
Proof.
  destruct (recalculateTotal_frame (withItems l o)) as [(H1 & H2 & H3 & H4) _].
  repeat split; simpl in *; assumption.
Qed.

Lemma mutation_frame c o :
  Order.isMutation c = true -> sameFrame o (snd (Order.call c o)).
Proof.
  intros Hc. destruct c; try discriminate; simpl;
    destruct (status_draft_dec o) as [Hs|Hs].
  - rewrite addItem_draft by assumption.
    repeat (match goal with
            | |- context [if ?x then _ else _] => destruct x
            | |- context [match ?x with _ => _ end] => destruct x as [[? ?]|]
            end; simpl);
      auto using sameFrame_refl, recalculateTotal_withItems_frame.
  - rewrite addItem_non_draft by assumption. apply sameFrame_refl.
  - rewrite removeItem_draft by assumption.
    destruct (find _ _) as [[? ?]|];
      auto using sameFrame_refl, recalculateTotal_withItems_frame.
  - rewrite removeItem_non_draft by assumption. apply sameFrame_refl.
  - rewrite changeItemQuantity_draft by assumption.
    destruct (find _ _) as [[? ?]|]; [destruct (_ <=? _)%float|];
      auto using sameFrame_refl, recalculateTotal_withItems_frame.
  - rewrite changeItemQuantity_non_draft by assumption. apply sameFrame_refl.
Qed.

(** ** Status guards *)

(** C3. On an order whose status is not draft, addItem, removeItem and
    changeItemQuantity each fail with InvalidState, and the order after the
    call is the order before it: item list, status, total amount and
    timestamp (and the two identifiers) are unchanged. *)
Theorem mutation_of_non_draft_rejected
  (o : Order.t) (p : ProductId.t) (q : float) (price : Money.t) :
  Order.status o <> Order.DRAFT ->
  Order.addItem p q price o = (Err InvalidState, o)
  /\ Order.removeItem p o = (Err InvalidState, o)
  /\ Order.changeItemQuantity p q o = (Err InvalidState, o).
Proof.
  intros Hs.
  auto using addItem_non_draft, removeItem_non_draft, changeItemQuantity_non_draft.
Qed.

Lemma mutation_of_non_draft_rejected_witness :
  let o := Order.after [Order.AddItem P1 2 (yen 1000); Order.Place 7] order0 in
  Order.status o <> Order.DRAFT
  /\ Order.addItem P2 1 (yen 500) o = (Err InvalidState, o)
  /\ Order.removeItem P2 o = (Err InvalidState, o)
  /\ Order.changeItemQuantity P2 1 o = (Err InvalidState, o).
Proof.
  split; [discriminate|].
  apply (mutation_of_non_draft_rejected
           (Order.after [Order.AddItem P1 2 (yen 1000); Order.Place 7] order0)
           P2 1 (yen 500)).
  discriminate.
Defined.

(** C4. cancel succeeds, setting the status to cancelled and nothing else,
    exactly when the status is draft, placed or paid; from shipped, delivered
    or cancelled it fails with InvalidState and the order is unchanged; from
    delivered and from cancelled every public operation fails and leaves the
    order, hence its status, unchanged. *)
Theorem cancel_and_terminal_states (o : Order.t) :
  Order.cancel o =
    match Order.status o with
    | Order.DRAFT | Order.PLACED | Order.PAID =>
        (Ok tt, withStatus Order.CANCELLED o)
    | Order.SHIPPED | Order.DELIVERED | Order.CANCELLED =>
        (Err InvalidState, o)
    end
  /\ match Order.status o with
     | Order.DELIVERED | Order.CANCELLED =>
         forall c, Order.call c o = (Err InvalidState, o)
     | _ => True
     end.
Proof.
  unfold_method. unfold withStatus.
  by_status o; split; try reflexivity; try exact I; intros []; reflexivity.
Qed.

(** ** place *)

(** The claim C2 as worded does not hold: an order with zero items that is
    not a draft (a draft cancelled while empty) fails place with
    InvalidState, not EmptyOrder, and an order with one item that is not a
    draft (already placed) does not succeed. *)
Lemma place_ignores_items_of_non_draft :
  (Order.items (Order.after [Order.Cancel] order0) = []
   /\ Order.place 9 (Order.after [Order.Cancel] order0)
      = (Err InvalidState, Order.after [Order.Cancel] order0))
  /\ (length (Order.items
        (Order.after [Order.AddItem P1 2 (yen 1000); Order.Place 7] order0)) = 1%nat
      /\ Order.place 9
           (Order.after [Order.AddItem P1 2 (yen 1000); Order.Place 7] order0)
         = (Err InvalidState,
            Order.after [Order.AddItem P1 2 (yen 1000); Order.Place 7] order0)).
Proof. repeat split. Qed.

(** C2, amended. place is decided by the status first: on a draft with zero
    items it fails with EmptyOrder, on a draft with at least one item it
    succeeds, sets the status to placed and records the timestamp; on an
    order that is not a draft it fails with InvalidState whatever its items;
    a failed place changes nothing. No other operation touches the
    timestamp, and markAsPaid, ship, deliver and cancel change at most the
    status. *)
Theorem place_by_status_then_items (o : Order.t) (now : Z) :
  Order.place now o =
    match Order.status o, Order.items o with
    | Order.DRAFT, [] => (Err EmptyOrder, o)
    | Order.DRAFT, _ :: _ => (Ok tt, placedOrder now o)
    | _, _ => (Err InvalidState, o)
    end
  /\ (forall c, isPlace c = false ->
        Order.placedAt (snd (Order.call c o)) = Order.placedAt o)
  /\ (forall c, isPlace c = false -> Order.isMutation c = false ->
        snd (Order.call c o) = withStatus (Order.status (snd (Order.call c o))) o).
Proof.
  unfold placedOrder, withStatus. repeat split.
  - unfold_method. by_status o. destruct l; reflexivity.
  - intros c Hc. destruct (Order.isMutation c) eqn:Hm.
    + apply (mutation_frame c o Hm).
    + destruct c; try discriminate; unfold_method; by_status o; reflexivity.
  - intros c Hc Hm. destruct c; try discriminate; unfold_method;
      by_status o; reflexivity.
Qed.

(** The scenario of the specification: two addItem calls on the same product,
    place, cancel, and a place that is then refused. *)
Example order_scenario :
  Order.after [Order.AddItem P1 2 (yen 1000); Order.AddItem P1 3 (yen 1000);
               Order.Place 7; Order.Cancel] order0
  = Order.mk (OrderId.mk "O1") (CustomerId.mk "C1")
             [OrderItem.mk P1 5 (yen 1000)] Order.CANCELLED (yen 5000) (Some 7)
  /\ fst (Order.place 8
            (Order.after [Order.AddItem P1 2 (yen 1000); Order.AddItem P1 3 (yen 1000);
                          Order.Place 7; Order.Cancel] order0))
     = Err InvalidState.
Proof. split; reflexivity. Qed.

(** ** Money *)

(** The claim C7 as worded does not hold for multiply: its argument is a
    number, no second currency is involved, and yen 100 times 2 is yen 200
    although a dollar amount is at hand. *)
Lemma multiply_has_no_currency_check :
  Money.currency (yen 100) <> Money.currency (usd 2)
  /\ Money.multiply (yen 100) (Money.amount (usd 2)) = Ok (yen 200).
Proof. split; [discriminate | reflexivity]. Qed.

Lemma upper_ascii_idem c : upper_ascii (upper_ascii c) = upper_ascii c.
Proof. destruct c as [[] [] [] [] [] [] [] []]; reflexivity. Qed.

Lemma toUpperCase_idem s : toUpperCase (toUpperCase s) = toUpperCase s.
Proof. induction s as [|c s IH]; simpl; [|rewrite upper_ascii_idem, IH]; reflexivity. Qed.

Lemma toUpperCase_length s : String.length (toUpperCase s) = String.length s.
Proof. induction s as [|c s IH]; simpl; [|rewrite IH]; reflexivity. Qed.

Lemma Money_new_wf a c m : Money.new a c = Ok m -> Money.wf m.
Proof.
  unfold Money.new, Money.wf.
  destruct (a <? 0)%float eqn:Ha; [discriminate|].
  destruct (String.length c =? 3)%nat eqn:Hc; simpl; [|discriminate].
  intros [= <-]. simpl. rewrite toUpperCase_length, toUpperCase_idem.
  apply Nat.eqb_eq in Hc. auto.
Qed.

Lemma Money_new_of_wf m a :
  Money.wf m -> (a <? 0)%float = false ->
  Money.new a (Money.currency m) = Ok (Money.mk a (Money.currency m)).
Proof.
  intros (_ & Hlen & Hup) Ha. unfold Money.new.
  rewrite Ha, Hlen, Hup. reflexivity.
Qed.

(** C7, amended. For two Money values whose currency codes differ, add and
    subtract (and the comparison greaterThan) fail with CurrencyMismatch.
    multiply takes a numeric factor, compares no currencies and never fails
    with CurrencyMismatch. *)
Theorem currency_mismatch_in_add_subtract (a b : Money.t) :
  Money.currency a <> Money.currency b ->
  Money.add a b = Err CurrencyMismatch
  /\ Money.subtract a b = Err CurrencyMismatch
  /\ Money.greaterThan a b = Err CurrencyMismatch
  /\ (forall k, Money.multiply a k <> Err CurrencyMismatch).
Proof.
  intros Hne. apply String.eqb_neq in Hne.
  unfold Money.add, Money.subtract, Money.greaterThan, Money.assertSameCurrency.
  rewrite Hne. simpl. repeat split; try reflexivity.
  intros k. unfold Money.multiply, Money.new.
  repeat (match goal with
          | |- context [if ?x then _ else _] => destruct x
          end); discriminate.
Qed.

Lemma currency_mismatch_in_add_subtract_witness :
  Money.add (yen 100) (usd 2) = Err CurrencyMismatch
  /\ Money.subtract (yen 100) (usd 2) = Err CurrencyMismatch
  /\ Money.greaterThan (yen 100) (usd 2) = Err CurrencyMismatch
  /\ (forall k, Money.multiply (yen 100) k <> Err CurrencyMismatch).
Proof.
  apply (currency_mismatch_in_add_subtract (yen 100) (usd 2)). discriminate.
Defined.

(** ** Repository *)

(** C9. Whatever the repository holds, save(o) followed by
    findById(o.getId()) returns a present result, the saved order itself,
    which equals o by identifier. *)
Theorem save_then_findById (orders : gmap string Order.t) (o : Order.t) :
  exists found,
    InMemoryOrderRepository.findById (Order.getId o)
      (InMemoryOrderRepository.save o orders) = Some found
    /\ found = o
    /\ Order.equals found o = true.
Proof.
  exists o. unfold InMemoryOrderRepository.findById, InMemoryOrderRepository.save.
  rewrite lookup_insert_eq. repeat split.
  unfold Order.equals, OrderId.equals. apply String.eqb_refl.
Qed.

(** ** What a mutation does to the item list *)

Lemma hasProduct_true it p :
  OrderItem.hasProduct it p = true <-> OrderItem.productId it = p.
Proof.
  unfold OrderItem.hasProduct, ProductId.equals.
  destruct (OrderItem.productId it) as [v], p as [w]. simpl.
  rewrite String.eqb_eq. split; congruence.
Qed.

Lemma hasProduct_false it p :
  OrderItem.hasProduct it p = false <-> OrderItem.productId it <> p.
Proof.
  rewrite <- hasProduct_true. destruct (OrderItem.hasProduct it p); split; congruence.
Qed.

(** A mutating call on a draft either throws at a guard, the order untouched,
    or changes the list and then recomputes the total. *)
Lemma mutation_of_draft c o :
  Order.isMutation c = true -> Order.status o = Order.DRAFT ->
  (exists e, raisedBeforeMutation e = true /\ Order.call c o = (Err e, o))
  \/ (exists l', items_change c (Order.items o) l'
                 /\ Order.call c o = Order.recalculateTotal (withItems l' o)).
Proof.
  intros Hc Hs. destruct c; try discriminate; simpl.
  - rewrite addItem_draft by assumption.
    destruct (Order.maxItems <=? length (Order.items o))%nat eqn:Hfull.
    { left. exists MaxItemsExceeded. auto. }
    apply Nat.leb_gt in Hfull.
    destruct (find _ (Order.items o)) as [[i it]|] eqn:Hfind.
    + destruct (OrderItem.quantity it + quantity <=? 0)%float eqn:Hq.
      { left. exists InvalidQuantity. auto. }
      right. eexists. split; [|reflexivity].
      now apply change_merge.
    + destruct (quantity <=? 0)%float eqn:Hq.
      { left. exists InvalidQuantity. auto. }
      right. eexists. split; [|reflexivity].
      now apply change_push.
  - rewrite removeItem_draft by assumption.
    destruct (find _ (Order.items o)) as [[i it]|] eqn:Hfind.
    + right. eexists. split; [|reflexivity]. now apply (change_remove _ _ i it).
    + left. exists ItemNotFound. auto.
  - rewrite changeItemQuantity_draft by assumption.
    destruct (find _ (Order.items o)) as [[i it]|] eqn:Hfind.
    + destruct (newQuantity <=? 0)%float eqn:Hq.
      { left. exists InvalidQuantity. auto. }
      right. eexists. split; [|reflexivity].
      now apply change_quantity.
    + left. exists ItemNotFound. auto.
Qed.

(** The same for any status: off draft the guard throws. *)
Lemma mutation_outcome c o :
  Order.isMutation c = true ->
  (exists e, raisedBeforeMutation e = true /\ Order.call c o = (Err e, o))
  \/ (Order.status o = Order.DRAFT
      /\ exists l', items_change c (Order.items o) l'
                    /\ Order.call c o = Order.recalculateTotal (withItems l' o)).
Proof.
  intros Hc. destruct (status_draft_dec o) as [Hs|Hs].
  - destruct (mutation_of_draft c o Hc Hs) as [H|H]; auto.
  - left. exists InvalidState. split; [reflexivity|].
    destruct c; try discriminate; simpl;
      auto using addItem_non_draft, removeItem_non_draft, changeItemQuantity_non_draft.
Qed.

(** The calls that are not mutations leave the items and the total alone. *)
Lemma transition_keeps_items c o :
  Order.isMutation c = false ->
  Order.items (snd (Order.call c o)) = Order.items o
  /\ Order.totalAmount (snd (Order.call c o)) = Order.totalAmount o.
Proof.
  intros Hc. destruct c; try discriminate; unfold_method; by_status o;
    try (destruct l; simpl); split; reflexivity.
Qed.

(** The items after any call: those before, or those a mutation produced. *)
Lemma items_after_call c o :
  Order.items (snd (Order.call c o)) = Order.items o
  \/ items_change c (Order.items o) (Order.items (snd (Order.call c o))).
Proof.
  destruct (Order.isMutation c) eqn:Hc.
  - destruct (mutation_outcome c o Hc) as [(e & _ & ->)|(_ & l' & Hl' & ->)]; [now left|].
    right. destruct (recalculateTotal_frame (withItems l' o)) as [_ ->]. exact Hl'.
  - left. now apply transition_keeps_items.
Qed.

(** *** Line count and distinct products *)

Lemma splice1_delete {A} i (l : list A) : splice1 i l = delete i l.
Proof. unfold splice1. symmetry. apply delete_take_drop. Qed.

Lemma productIds_withQuantity l i it q :
  l !! i = Some it -> productIds (<[i := withQuantity q it]> l) = productIds l.
Proof.
  intros Hl. unfold productIds. rewrite list_fmap_insert. simpl.
  apply list_insert_id. rewrite list_lookup_fmap, Hl. reflexivity.
Qed.

Lemma items_change_length c l l' :
  items_change c l l' -> (length l <= Order.maxItems)%nat ->
  (length l' <= Order.maxItems)%nat.
Proof.
  intros H Hlen. destruct H.
  - now rewrite length_insert.
  - rewrite length_app. simpl. lia.
  - rewrite splice1_delete, length_delete; [lia|].
    apply find_Some in H as [H _]. eauto.
  - now rewrite length_insert.
Qed.

Lemma items_change_NoDup c l l' :
  items_change c l l' -> NoDup (productIds l) -> NoDup (productIds l').
Proof.
  intros H Hnd. destruct H.
  - apply find_Some in H0 as [H0 _]. now rewrite productIds_withQuantity.
  - unfold productIds. rewrite fmap_app. apply NoDup_app. repeat split; auto.
    + intros x Hx Hx'. simpl in Hx'. apply list_elem_of_singleton in Hx'. subst x.
      apply list_elem_of_fmap in Hx as (it & Hp & Hit).
      apply find_None in H0. rewrite Forall_forall in H0.
      apply H0 in Hit. apply hasProduct_false in Hit. congruence.
    + simpl. apply NoDup_singleton.
  - rewrite splice1_delete. unfold productIds. rewrite list_fmap_delete.
    eapply sublist_NoDup; [exact Hnd | apply sublist_delete].
  - apply find_Some in H as [H _]. now rewrite productIds_withQuantity.
Qed.

Lemma items_change_quantities c l l' :
  items_change c l l' ->
  Forall (fun it => validQuantity (OrderItem.quantity it)) l ->
  Forall (fun it => validQuantity (OrderItem.quantity it)) l'.
Proof.
  intros H Hl. destruct H.
  - now apply Forall_insert.
  - apply Forall_app. split; [assumption|]. now repeat constructor.
  - rewrite splice1_delete. now apply Forall_delete.
  - now apply Forall_insert.
Qed.

Lemma reachable_lines o :
  Order.reachable o ->
  (length (Order.items o) <= Order.maxItems)%nat
  /\ NoDup (productIds (Order.items o))
  /\ Forall (fun it => validQuantity (OrderItem.quantity it)) (Order.items o).
Proof.
  induction 1 as [i c o Hnew | c o Hr (IHlen & IHnd & IHpos)].
  - unfold Order.new in Hnew. simpl in Hnew. injection Hnew as <-. simpl.
    repeat split; [unfold Order.maxItems; lia | constructor | constructor].
  - destruct (items_after_call c o) as [-> | Hch]; [auto|].
    repeat split;
      eauto using items_change_length, items_change_NoDup, items_change_quantities.
Qed.

(** ** The total *)

Lemma getSubtotal_validLine it :
  validLine it -> OrderItem.getSubtotal it = Ok (subtotalOf it).
Proof.
  intros [Hq Hwf]. unfold OrderItem.getSubtotal, Money.multiply, subtotalOf.
  rewrite (leb_zero_ltb _ Hq).
  apply Money_new_of_wf; [assumption|].
  apply floor_not_negative, mul_not_negative; [apply Hwf | apply leb_zero_ltb, Hq].
Qed.

Lemma subtotalOf_not_negative it :
  validLine it -> (Money.amount (subtotalOf it) <? 0)%float = false.
Proof.
  intros [Hq Hwf]. simpl.
  apply floor_not_negative, mul_not_negative; [apply Hwf | apply leb_zero_ltb, Hq].
Qed.

Lemma yenLine_validLine it : yenLine it -> validLine it.
Proof. intros (Hq & Hwf & _). split; assumption. Qed.

Lemma getSubtotal_yenLine it :
  yenLine it -> OrderItem.getSubtotal it = Ok (yen (Money.amount (subtotalOf it))).
Proof.
  intros Hit. rewrite (getSubtotal_validLine it (yenLine_validLine it Hit)).
  destruct Hit as (_ & _ & Hc). unfold subtotalOf, yen. now rewrite Hc.
Qed.

Lemma add_yen a b :
  (a + b <? 0)%float = false -> Money.add (yen a) (yen b) = Ok (yen (a + b)).
Proof.
  intros H. unfold Money.add, Money.new. simpl. now rewrite H.
Qed.

Lemma reduce_yenLines l : Forall yenLine l -> forall a, (a <? 0)%float = false ->
  reduce (fun sum item =>
            rbind (OrderItem.getSubtotal item) (fun subtotal => Money.add sum subtotal))
         l (yen a)
  = Ok (yen (fold_left (fun sum it => (sum + Money.amount (subtotalOf it))%float) l a)).
Proof.
  induction 1 as [|it l Hit Hl IH]; intros a Ha; [reflexivity|].
  cbn [reduce fold_left]. rewrite (getSubtotal_yenLine it Hit). cbn [rbind].
  assert (Hsum : (a + Money.amount (subtotalOf it) <? 0)%float = false).
  { apply add_not_negative; [assumption|].
    apply subtotalOf_not_negative, yenLine_validLine, Hit. }
  rewrite (add_yen _ _ Hsum). cbn [rbind]. apply IH, Hsum.
Qed.

Lemma sumSubtotals_yenLines l :
  Forall yenLine l -> Order.sumSubtotals l = Ok (yen (subtotalSum l)).
Proof.
  intros Hl. unfold Order.sumSubtotals. simpl.
  apply (reduce_yenLines l Hl 0%float). reflexivity.
Qed.

Lemma yenLine_withQuantity it q :
  yenLine it -> validQuantity q -> yenLine (withQuantity q it).
Proof. intros (_ & Hwf & Hc) Hq. repeat split; simpl; auto; apply Hwf. Qed.

Lemma yenLines_withQuantity l i it q :
  l !! i = Some it -> Forall yenLine l -> validQuantity q ->
  Forall yenLine (<[i := withQuantity q it]> l).
Proof.
  intros Hi Hl Hq. apply Forall_insert; [assumption|].
  apply yenLine_withQuantity; [|assumption]. eapply Forall_lookup_1; eauto.
Qed.

Lemma items_change_yenLines c l l' :
  items_change c l l' -> yenCall c -> Forall yenLine l -> Forall yenLine l'.
Proof.
  intros H Hc Hl. destruct H.
  - apply find_Some in H0 as [H0 _]. now apply yenLines_withQuantity.
  - apply Forall_app. split; [assumption|].
    constructor; [|constructor]. destruct Hc as [Hwf Hcur]. repeat split; simpl; auto; apply Hwf.
  - rewrite splice1_delete. now apply Forall_delete.
  - apply find_Some in H as [H _]. now apply yenLines_withQuantity.
Qed.

Lemma totalIsSum_call c o : totalIsSum o -> yenCall c -> totalIsSum (snd (Order.call c o)).
Proof.
  intros [Hl Ht] Hc. destruct (Order.isMutation c) eqn:Hm.
  - destruct (mutation_outcome c o Hm) as [(e & _ & ->)|(_ & l' & Hl' & ->)];
      [split; assumption|].
    pose proof (items_change_yenLines c _ l' Hl' Hc Hl) as Hyen.
    rewrite recalculateTotal_eq. simpl.
    rewrite (sumSubtotals_yenLines l' Hyen). split; [exact Hyen | reflexivity].
  - destruct (transition_keeps_items c o Hm) as [Hi Hs].
    unfold totalIsSum. rewrite Hi, Hs. split; assumption.
Qed.

Lemma totalIsSum_after cs : forall o,
  totalIsSum o -> Forall yenCall cs -> totalIsSum (Order.after cs o).
Proof.
  induction cs as [|c cs IH]; intros o Ho Hcs; [exact Ho|].
  inversion Hcs as [|? ? Hc Hrest]; subst.
  apply (IH (snd (Order.call c o))); [now apply totalIsSum_call | assumption].
Qed.

(** After a mutation that returned, the total is the sum of the subtotals
    as the code computes it, whatever the order was before. *)
Lemma successful_mutation_total c o :
  Order.isMutation c = true -> fst (Order.call c o) = Ok tt ->
  Order.sumSubtotals (Order.items (snd (Order.call c o)))
  = Ok (Order.totalAmount (snd (Order.call c o))).
Proof.
  intros Hm Hok.
  destruct (mutation_outcome c o Hm) as [(e & _ & Hcall)|(_ & l' & _ & Hcall)];
    rewrite Hcall in *; [discriminate|].
  rewrite recalculateTotal_eq in *. simpl in *.
  destruct (Order.sumSubtotals l') eqn:Hsum; [simpl; now rewrite Hsum | discriminate].
Qed.

(** From a new order, after every sequence of public calls whose addItem
    prices are yen amounts, the total amount is the sum of the subtotals of
    the current lines as the order computes it, in yen, zero for no line;
    it is so after each call of the sequence, returned or thrown. *)
Lemma yen_calls_keep_total_equal_to_sum
  (i : OrderId.t) (c : CustomerId.t) (o : Order.t) (cs : list Order.Call) :
  Order.new i c = Ok o ->
  Forall yenCall cs ->
  Order.totalAmount (Order.after cs o) = yen (subtotalSum (Order.items (Order.after cs o)))
  /\ Order.sumSubtotals (Order.items (Order.after cs o))
     = Ok (Order.totalAmount (Order.after cs o)).
Proof.
  intros Hnew Hcs.
  assert (Ho : totalIsSum o).
  { unfold Order.new in Hnew. simpl in Hnew. injection Hnew as <-.
    split; [constructor | reflexivity]. }
  destruct (totalIsSum_after cs o Ho Hcs) as [Hl Ht].
  split; [exact Ht|]. rewrite Ht. now apply sumSubtotals_yenLines.
Qed.

Example yen_calls_keep_total_equal_to_sum_example :
  Order.after [Order.AddItem P1 2 (yen 1000); Order.AddItem P2 1 (yen 300);
               Order.ChangeItemQuantity P2 4; Order.RemoveItem P1;
               Order.RemoveItem P1] order0
  = Order.mk (OrderId.mk "O1") (CustomerId.mk "C1")
             [OrderItem.mk P2 4 (yen 300)] Order.DRAFT (yen 1200) None.
Proof. reflexivity. Qed.

(** C1: the code at the failing input. On a new order, addItem(P1, 1,
    yen 100) returns; addItem(P2, 1, 5 dollars) throws CurrencyMismatch out
    of recalculateTotal after the line was appended, which leaves two lines
    and a total of 100 yen; removeItem(P1) then throws the same way after
    the line was removed, which leaves the single line of 5 dollars and a
    total of still 100 yen. The total is not the sum of the subtotals of the
    current lines, and that sum, as the code computes it, does not exist. *)
Theorem total_not_sum_after_foreign_price :
  Money.new 100 "JPY" = Ok (yen 100) /\ Money.new 5 "USD" = Ok (usd 5)
  /\ Order.after [Order.AddItem P1 1 (yen 100); Order.AddItem P2 1 (usd 5)] order0
     = Order.mk (OrderId.mk "O1") (CustomerId.mk "C1")
                [OrderItem.mk P1 1 (yen 100); OrderItem.mk P2 1 (usd 5)]
                Order.DRAFT (yen 100) None
  /\ Order.after [Order.AddItem P1 1 (yen 100); Order.AddItem P2 1 (usd 5);
                  Order.RemoveItem P1] order0
     = Order.mk (OrderId.mk "O1") (CustomerId.mk "C1")
                [OrderItem.mk P2 1 (usd 5)] Order.DRAFT (yen 100) None
  /\ OrderItem.getSubtotal (OrderItem.mk P2 1 (usd 5)) = Ok (usd 5)
  /\ Order.sumSubtotals [OrderItem.mk P2 1 (usd 5)] = Err CurrencyMismatch.
Proof. repeat split. Qed.


(** ** Failed calls *)

Lemma Money_new_error a c e : Money.new a c = Err e -> moneyError e = true.
Proof.
  unfold Money.new. destruct (a <? 0)%float; [now intros [= <-]|].
  destruct (negb _); [now intros [= <-] | discriminate].
Qed.

Lemma multiply_error m k e : Money.multiply m k = Err e -> moneyError e = true.
Proof.
  unfold Money.multiply. destruct (k <? 0)%float; [now intros [= <-] | apply Money_new_error].
Qed.

Lemma add_error m n e : Money.add m n = Err e -> moneyError e = true.
Proof.
  unfold Money.add, Money.assertSameCurrency.
  destruct (negb _); simpl; [now intros [= <-] | apply Money_new_error].
Qed.

Lemma reduce_subtotals_error l : forall acc e,
  reduce (fun sum item =>
            rbind (OrderItem.getSubtotal item) (fun subtotal => Money.add sum subtotal))
         l acc = Err e ->
  moneyError e = true.
Proof.
  induction l as [|it l IH]; intros acc e; simpl; [discriminate|].
  destruct (OrderItem.getSubtotal it) as [sub|e1] eqn:Hsub; simpl.
  - destruct (Money.add acc sub) as [acc'|e2] eqn:Hadd; simpl; [apply IH|].
    intros [= <-]. eapply add_error; eauto.
  - intros [= <-]. eapply multiply_error; eauto.
Qed.

Lemma sumSubtotals_error l e : Order.sumSubtotals l = Err e -> moneyError e = true.
Proof. unfold Order.sumSubtotals. simpl. apply reduce_subtotals_error. Qed.

(** A call that fails with InvalidState, EmptyOrder, ItemNotFound,
    InvalidQuantity or MaxItemsExceeded leaves the order as it was. *)
Lemma guard_failure_leaves_order c o e :
  raisedBeforeMutation e = true -> fst (Order.call c o) = Err e ->
  snd (Order.call c o) = o.
Proof.
  intros He Hfail. destruct (Order.isMutation c) eqn:Hm.
  - destruct (mutation_outcome c o Hm) as [(e' & _ & Hcall)|(_ & l' & _ & Hcall)];
      rewrite Hcall in *; [reflexivity|].
    rewrite recalculateTotal_eq in *. simpl in *.
    destruct (Order.sumSubtotals l') eqn:Hsum; simpl in *; [discriminate|].
    injection Hfail as ->. apply sumSubtotals_error in Hsum.
    destruct e; discriminate.
  - destruct c; try discriminate; unfold_method; by_status o;
      try (destruct l; simpl in *); congruence.
Qed.

(** C6: the code at the failing input. addItem with a valid price of 5
    dollars on a new order throws CurrencyMismatch out of recalculateTotal
    after the line was pushed: the call failed, the item list went from no
    line to one line, and the total is still 0 yen. *)
Theorem addItem_foreign_price_is_not_atomic :
  Money.new 5 "USD" = Ok (usd 5)
  /\ Order.items order0 = []
  /\ Order.addItem P1 1 (usd 5) order0
     = (Err CurrencyMismatch,
        Order.mk (OrderId.mk "O1") (CustomerId.mk "C1")
                 [OrderItem.mk P1 1 (usd 5)] Order.DRAFT (yen 0) None).
Proof. repeat split. Qed.

(** ** Orders off draft *)

(** The claim C8 as worded does not hold: cancel on a new order succeeds, so
    the order has left draft with no item. *)
Lemma cancelled_draft_has_no_item :
  Order.reachable (Order.after [Order.Cancel] order0)
  /\ Order.cancel order0 = (Ok tt, Order.after [Order.Cancel] order0)
  /\ Order.status (Order.after [Order.Cancel] order0) = Order.CANCELLED
  /\ Order.items (Order.after [Order.Cancel] order0) = [].
Proof.
  split; [apply reachable_after, order0_reachable | repeat split].
Qed.

Lemma placedHasItems_call c o : placedHasItems o -> placedHasItems (snd (Order.call c o)).
Proof.
  intros Ho. destruct (Order.isMutation c) eqn:Hm.
  - destruct (status_draft_dec o) as [Hs|Hs].
    + destruct (mutation_frame c o Hm) as (_ & _ & Hs' & Hp).
      unfold placedHasItems in *. rewrite Hs', Hp. rewrite Hs in *. exact Ho.
    + destruct (mutation_outcome c o Hm) as [(e & _ & ->)|(Hs' & _)]; [exact Ho|].
      contradiction.
  - unfold placedHasItems in *.
    destruct c; try discriminate; unfold_method; by_status o;
      try (destruct l; simpl in *); intuition congruence.
Qed.

Lemma reachable_placedHasItems o : Order.reachable o -> placedHasItems o.
Proof.
  induction 1 as [i c o Hnew | c o Hr IH].
  - unfold Order.new in Hnew. simpl in Hnew. injection Hnew as <-. reflexivity.
  - now apply placedHasItems_call.
Qed.

(** C8, amended. Every reachable order whose status is placed, paid, shipped
    or delivered contains at least one item, and so does every cancelled
    order that had been placed; the one exception is an order cancelled
    straight from draft, which has no timestamp and may be empty. *)
Theorem off_draft_has_item_unless_cancelled_unplaced (o : Order.t) :
  Order.reachable o ->
  Order.status o <> Order.DRAFT ->
  Order.items o <> []
  \/ (Order.status o = Order.CANCELLED /\ Order.placedAt o = None).
Proof.
  intros Hr Hs. apply reachable_placedHasItems in Hr.
  unfold placedHasItems in Hr.
  destruct (Order.status o); try contradiction; intuition.
Qed.

Lemma off_draft_has_item_unless_cancelled_unplaced_witness :
  Order.items (Order.after [Order.AddItem P1 2 (yen 1000); Order.Place 7; Order.Cancel] order0)
    <> []
  \/ (Order.status
        (Order.after [Order.AddItem P1 2 (yen 1000); Order.Place 7; Order.Cancel] order0)
      = Order.CANCELLED
      /\ Order.placedAt
           (Order.after [Order.AddItem P1 2 (yen 1000); Order.Place 7; Order.Cancel] order0)
         = None).
Proof.
  apply (off_draft_has_item_unless_cancelled_unplaced
           (Order.after [Order.AddItem P1 2 (yen 1000); Order.Place 7; Order.Cancel] order0)).
  - apply reachable_after, order0_reachable.
  - discriminate.
Defined.

(** ** addItem: merging, and the cap on lines *)

Lemma fullOrder_reachable : Order.reachable fullOrder.
Proof. apply reachable_after, order0_reachable. Qed.

Lemma fullOrder_full :
  Order.status fullOrder = Order.DRAFT
  /\ length (Order.items fullOrder) = Order.maxItems
  /\ Order.totalAmount fullOrder = yen 1000.
Proof. vm_compute. repeat split. Qed.

Lemma addItem_merge o p q price i it :
  Order.status o = Order.DRAFT ->
  (length (Order.items o) < Order.maxItems)%nat ->
  find (fun item => OrderItem.hasProduct item p) (Order.items o) = Some (i, it) ->
  validQuantity (OrderItem.quantity it + q) ->
  Order.addItem p q price o
  = Order.recalculateTotal
      (withItems (<[i := withQuantity (OrderItem.quantity it + q) it]> (Order.items o)) o).
Proof.
  intros Hs Hlen Hfind Hq. rewrite addItem_draft by assumption.
  apply Nat.leb_gt in Hlen. rewrite Hlen, Hfind.
  unfold validQuantity in Hq. now rewrite Hq.
Qed.

(** Below the cap, addItem of a product that has a line leaves the number
    of lines as it is, whether it returns or throws. *)
Lemma addItem_existing_length o p q price i it :
  Order.status o = Order.DRAFT ->
  find (fun item => OrderItem.hasProduct item p) (Order.items o) = Some (i, it) ->
  length (Order.items (snd (Order.addItem p q price o))) = length (Order.items o).
Proof.
  intros Hs Hfind. rewrite addItem_draft by assumption.
  destruct (Order.maxItems <=? length (Order.items o))%nat; [reflexivity|].
  rewrite Hfind.
  destruct (OrderItem.quantity it + q <=? 0)%float; [reflexivity|].
  destruct (recalculateTotal_frame
              (withItems (<[i := withQuantity (OrderItem.quantity it + q) it]>
                            (Order.items o)) o)) as [_ ->].
  simpl. apply length_insert.
Qed.

Lemma addItem_at_cap o p q price :
  Order.status o = Order.DRAFT ->
  (Order.maxItems <= length (Order.items o))%nat ->
  Order.addItem p q price o = (Err MaxItemsExceeded, o).
Proof.
  intros Hs Hlen. rewrite addItem_draft by assumption.
  apply Nat.leb_le in Hlen. now rewrite Hlen.
Qed.

(** The claim C5 as worded does not hold on a draft that already has one
    hundred lines: addItem of a product that has a line (A0, quantity 1)
    throws at the cap, and the quantity of that line is not increased. *)
Lemma merge_refused_on_full_order :
  Order.status fullOrder = Order.DRAFT
  /\ find (fun item => OrderItem.hasProduct item (ProductId.mk "A0")) (Order.items fullOrder)
     = Some (0%nat, OrderItem.mk (ProductId.mk "A0") 1 (yen 10))
  /\ Order.addItem (ProductId.mk "A0") 2 (yen 10) fullOrder = (Err MaxItemsExceeded, fullOrder).
Proof. vm_compute. repeat split. Qed.

(** C5, amended. On a draft with fewer than 100 lines, addItem of a product
    that has a line sets that line's quantity to its sum with the given
    quantity, provided the sum passes the quantity check (it is not 0 or
    less): the list keeps its length, no line is added, and when the lines
    are yen lines the call returns with the total recomputed. On a draft
    with 100 lines or more the same call fails with MaxItemsExceeded and
    changes nothing. removeItem on a draft with a product that has no line
    fails with ItemNotFound and changes nothing. On a new order,
    addItem(P1, 2, yen 1000) then addItem(P1, 3, yen 1000) both return and
    leave one line of quantity 5 and a total of yen 5000. *)
Theorem addItem_merges_into_existing_line (o : Order.t) (p : ProductId.t) :
  Order.status o = Order.DRAFT ->
  (forall q price i it,
     (length (Order.items o) < Order.maxItems)%nat ->
     find (fun item => OrderItem.hasProduct item p) (Order.items o) = Some (i, it) ->
     validQuantity (OrderItem.quantity it + q) ->
     Order.items (snd (Order.addItem p q price o))
       = <[i := withQuantity (OrderItem.quantity it + q) it]> (Order.items o)
     /\ length (Order.items (snd (Order.addItem p q price o))) = length (Order.items o)
     /\ (Forall yenLine (Order.items o) ->
         fst (Order.addItem p q price o) = Ok tt
         /\ Order.totalAmount (snd (Order.addItem p q price o))
            = yen (subtotalSum (Order.items (snd (Order.addItem p q price o))))))
  /\ ((Order.maxItems <= length (Order.items o))%nat ->
      forall q price, Order.addItem p q price o = (Err MaxItemsExceeded, o))
  /\ (find (fun item => OrderItem.hasProduct item p) (Order.items o) = None ->
      Order.removeItem p o = (Err ItemNotFound, o))
  /\ Order.addItem P1 2 (yen 1000) order0
     = (Ok tt, Order.mk (OrderId.mk "O1") (CustomerId.mk "C1")
                 [OrderItem.mk P1 2 (yen 1000)] Order.DRAFT (yen 2000) None)
  /\ Order.addItem P1 3 (yen 1000)
       (Order.mk (OrderId.mk "O1") (CustomerId.mk "C1")
          [OrderItem.mk P1 2 (yen 1000)] Order.DRAFT (yen 2000) None)
     = (Ok tt, Order.mk (OrderId.mk "O1") (CustomerId.mk "C1")
                 [OrderItem.mk P1 5 (yen 1000)] Order.DRAFT (yen 5000) None).
Proof.
  intros Hs. split; [|split; [|split; [|split; reflexivity]]].
  - intros q price i it Hlen Hfind Hq.
    rewrite (addItem_merge o p q price i it) by assumption.
    set (l' := <[i := withQuantity (OrderItem.quantity it + q) it]> (Order.items o)).
    destruct (recalculateTotal_frame (withItems l' o)) as [_ Hitems]. simpl in Hitems.
    rewrite Hitems. split; [reflexivity|]. split; [unfold l'; now rewrite length_insert|].
    intros Hyen. rewrite recalculateTotal_eq. simpl.
    rewrite (sumSubtotals_yenLines l'); [split; reflexivity|].
    apply find_Some in Hfind as [Hi _]. now apply yenLines_withQuantity.
  - intros Hfull q price. now apply addItem_at_cap.
  - intros Hnone. rewrite removeItem_draft by assumption. now rewrite Hnone.
Qed.

Lemma addItem_merges_into_existing_line_witness :
  Order.items
    (snd (Order.addItem P1 3 (yen 1000)
            (Order.after [Order.AddItem P1 2 (yen 1000); Order.AddItem P2 1 (yen 300)] order0)))
  = [OrderItem.mk P1 5 (yen 1000); OrderItem.mk P2 1 (yen 300)].
Proof.
  refine (proj1 (proj1 (addItem_merges_into_existing_line
            (Order.after [Order.AddItem P1 2 (yen 1000); Order.AddItem P2 1 (yen 300)] order0)
            P1 _) 3%float (yen 1000) 0%nat (OrderItem.mk P1 2 (yen 1000)) _ _ _)).
  - reflexivity.
  - vm_compute. lia.
  - reflexivity.
  - reflexivity.
Defined.

(** The claim C10 as worded does not hold in its clause on merging: on the
    reachable draft with one hundred lines, addItem of J9, which has a line,
    throws like any other addItem and changes nothing. *)
Lemma merge_at_the_cap_fails :
  Order.reachable fullOrder
  /\ Order.status fullOrder = Order.DRAFT
  /\ length (Order.items fullOrder) = 100%nat
  /\ find (fun item => OrderItem.hasProduct item (ProductId.mk "J9")) (Order.items fullOrder)
     = Some (99%nat, OrderItem.mk (ProductId.mk "J9") 1 (yen 10))
  /\ Order.addItem (ProductId.mk "J9") 3 (yen 10) fullOrder = (Err MaxItemsExceeded, fullOrder).
Proof. split; [exact fullOrder_reachable|]. vm_compute. repeat split. Qed.

(** C10, amended. A reachable order holds at most 100 lines, of distinct
    products. On a draft that holds 100 lines every addItem fails with
    MaxItemsExceeded, whether its product has a line or not, and leaves the
    order unchanged. Below 100 lines an addItem of a product that has a
    line never adds a line, and sets the quantity of that line to its sum
    with the given quantity whenever the sum passes the quantity check: the
    cap bounds the number of lines, not the quantities. *)
Theorem at_most_maxItems_lines (o : Order.t) :
  Order.reachable o ->
  (length (Order.items o) <= Order.maxItems)%nat
  /\ NoDup (productIds (Order.items o))
  /\ (Order.status o = Order.DRAFT ->
      length (Order.items o) = Order.maxItems ->
      forall p q price, Order.addItem p q price o = (Err MaxItemsExceeded, o))
  /\ (Order.status o = Order.DRAFT ->
      (length (Order.items o) < Order.maxItems)%nat ->
      forall p q price i it,
        find (fun item => OrderItem.hasProduct item p) (Order.items o) = Some (i, it) ->
        length (Order.items (snd (Order.addItem p q price o))) = length (Order.items o)
        /\ (validQuantity (OrderItem.quantity it + q) ->
            Order.items (snd (Order.addItem p q price o)) !! i
            = Some (withQuantity (OrderItem.quantity it + q) it))).
Proof.
  intros Hr. destruct (reachable_lines o Hr) as (Hlen & Hnd & _).
  split; [assumption|]. split; [assumption|]. split.
  - intros Hs Hfull p q price. apply addItem_at_cap; [assumption | lia].
  - intros Hs Hroom p q price i it Hfind.
    split; [now apply (addItem_existing_length o p q price i it)|].
    intros Hq. destruct (find_Some _ _ _ _ Hfind) as [Hi _].
    rewrite (addItem_merge o p q price i it) by assumption.
    destruct (recalculateTotal_frame
                (withItems (<[i := withQuantity (OrderItem.quantity it + q) it]>
                              (Order.items o)) o)) as [_ ->].
    simpl. apply list_lookup_insert_eq. eauto using lookup_lt_Some.
Qed.

Lemma at_most_maxItems_lines_witness :
  (length (Order.items fullOrder) <= Order.maxItems)%nat.
Proof.
  exact (proj1 (at_most_maxItems_lines fullOrder
                  (reachable_after _ order0 order0_reachable))).
Defined.

(** * Further properties of the code *)

(** ** Numbers: addition, subtraction and comparison *)

Lemma SFadd_comm x y : SFadd prec emax x y = SFadd prec emax y x.
Proof.
  destruct x as [sx|sx| |sx mx ex], y as [sy|sy| |sy my ey]; simpl;
    try reflexivity; try (destruct sx, sy; reflexivity).
  rewrite (Z.min_comm ey ex). f_equal. apply Z.add_comm.
Qed.

Lemma float_add_comm (x y : float) : (x + y)%float = (y + x)%float.
Proof. apply Prim2SF_inj. rewrite !FloatAxioms.add_spec. apply SFadd_comm. Qed.

(** A mantissa of [d] binary digits lies between [2 ^ (d - 1)] and [2 ^ d]. *)
Lemma digits2_pos_bounds m :
  2 ^ (Z.pos (digits2_pos m) - 1) <= Z.pos m < 2 ^ Z.pos (digits2_pos m).
Proof.
  induction m as [m IH|m IH|]; simpl digits2_pos; [| |simpl; lia].
  - rewrite Pos2Z.inj_succ.
    replace (Z.succ (Z.pos (digits2_pos m)) - 1)
      with (Z.succ (Z.pos (digits2_pos m) - 1)) by lia.
    rewrite !Z.pow_succ_r by lia. rewrite (Pos2Z.inj_xI m).
    generalize dependent (2 ^ (Z.pos (digits2_pos m) - 1)).
    generalize (2 ^ Z.pos (digits2_pos m)). intros; lia.
  - rewrite Pos2Z.inj_succ.
    replace (Z.succ (Z.pos (digits2_pos m)) - 1)
      with (Z.succ (Z.pos (digits2_pos m) - 1)) by lia.
    rewrite !Z.pow_succ_r by lia. rewrite (Pos2Z.inj_xO m).
    generalize dependent (2 ^ (Z.pos (digits2_pos m) - 1)).
    generalize (2 ^ Z.pos (digits2_pos m)). intros; lia.
Qed.

(** Of two positive numbers in canonical form, the one with the greater
    exponent has the greater mantissa once both are written with the
    smaller exponent. *)
Lemma aligned_mantissa_greater mx ex my ey d :
  bounded prec emax mx ex = true -> bounded prec emax my ey = true ->
  ey - ex = Z.neg d ->
  Z.pos my <= Z.pos (Pos.iter xO mx d).
Proof.
  unfold bounded, canonical_mantissa, fexp, SpecFloat.emin.
  rewrite !andb_true_iff, !Z.eqb_eq. intros [Hx _] [Hy _] Hd.
  pose proof (digits2_pos_bounds mx) as [Hmx _].
  pose proof (digits2_pos_bounds my) as [_ Hmy].
  change (Pos.iter xO mx d) with (shift_pos d mx). rewrite shift_pos_correct.
  change (Z.pow_pos 2 d) with (2 ^ Z.pos d).
  assert (Hdx : Z.pos (digits2_pos mx) = prec) by lia.
  assert (Hdy : Z.pos (digits2_pos my) <= prec) by lia.
  rewrite Hdx in Hmx.
  assert (H1 : 2 ^ Z.pos (digits2_pos my) <= 2 ^ prec) by (apply Z.pow_le_mono_r; lia).
  assert (H2 : 2 ^ prec = 2 * 2 ^ (prec - 1)) by reflexivity.
  assert (H3 : 2 <= 2 ^ Z.pos d).
  { change 2 with (2 ^ 1) at 1. apply Z.pow_le_mono_r; lia. }
  nia.
Qed.

(** The difference of two numbers, the second above zero and the first not
    below the second, is not below zero. *)
Lemma SFsub_sign x y :
  valid_binary x = true -> valid_binary y = true ->
  SFleb y (S754_zero false) = false -> SFltb x y = false ->
  notNegative (SFsub prec emax x y).
Proof.
  unfold SFleb, SFltb.
  destruct x as [sx|sx| |sx mx ex], y as [sy|[]| |[] my ey]; simpl;
    try discriminate; try (intros; exact I);
    try (destruct sx; simpl; try discriminate; intros; exact I).
  intros Hx Hy _ Hlt. destruct sx; [discriminate|]. simpl.
  apply binary_normalize_sign.
  unfold shl_align.
  destruct (ex ?= ey) eqn:Hcmp.
  - apply Z.compare_eq in Hcmp. subst ey. rewrite Z.min_id, Z.sub_diag. simpl.
    change (Pos.compare_cont Eq mx my) with (mx ?= my)%positive in Hlt.
    destruct (mx ?= my)%positive eqn:Hm; try discriminate.
    + apply Pos.compare_eq in Hm. subst. lia.
    + apply Pos.compare_gt_iff in Hm. lia.
  - discriminate.
  - apply Z.compare_gt_iff in Hcmp. rewrite Z.min_r by lia. rewrite Z.sub_diag.
    destruct (ey - ex) as [|d|d] eqn:Hd; try lia. simpl.
    pose proof (aligned_mantissa_greater mx ex my ey d Hx Hy Hd). lia.
Qed.

Lemma sub_not_negative x y :
  (y <=? 0)%float = false -> (x <? y)%float = false -> (x - y <? 0)%float = false.
Proof.
  rewrite ltb_zero_notNegative, FloatAxioms.leb_spec, FloatAxioms.ltb_spec,
    FloatAxioms.sub_spec.
  change (Prim2SF 0) with (S754_zero false).
  apply SFsub_sign; apply Prim2SF_valid.
Qed.

(** Taking a zero or NaN from a number that is not below zero. *)
Lemma SFsub_zeroOrNaN x d :
  notNegative x -> zeroOrNaN d -> notNegative (SFsub prec emax x d).
Proof.
  destruct x as [sx|sx| |sx mx ex], d as [sd|sd| |sd md ed]; simpl;
    try contradiction; try exact (fun _ _ => I);
    try (destruct sx; simpl; try contradiction; try (destruct sd; simpl));
    intros _ _; exact I.
Qed.

Lemma sub_zero_not_negative t d :
  (t <? 0)%float = false -> zeroOrNaN (Prim2SF d) -> (t - d <? 0)%float = false.
Proof.
  rewrite !ltb_zero_notNegative, FloatAxioms.sub_spec. apply SFsub_zeroOrNaN.
Qed.



Lemma SFcompare_antisym x y :
  SFcompare y x = option_map CompOpp (SFcompare x y).
Proof.
  destruct x as [sx|sx| |sx mx ex], y as [sy|sy| |sy my ey]; simpl;
    try reflexivity; try (destruct sx; reflexivity); try (destruct sy; reflexivity);
    try (destruct sx, sy; reflexivity).
  destruct sx, sy; simpl; try reflexivity;
    rewrite (Z.compare_antisym ex ey); destruct (ex ?= ey); simpl; try reflexivity;
    change (Pos.compare_cont Eq my mx) with (my ?= mx)%positive;
    change (Pos.compare_cont Eq mx my) with (mx ?= my)%positive;
    rewrite (Pos.compare_antisym mx my); destruct (mx ?= my)%positive; reflexivity.
Qed.

Lemma SFcompare_refl x : SFcompare x x = Some Eq \/ x = S754_nan.
Proof.
  destruct x as [sx|sx| |sx mx ex]; simpl; auto; left.
  - destruct sx; reflexivity.
  - rewrite Z.compare_refl. change (Pos.compare_cont Eq mx mx) with (mx ?= mx)%positive.
    rewrite Pos.compare_refl. destruct sx; reflexivity.
Qed.

(** A number that does not equal itself is NaN. *)
Lemma eqb_self_false x : (x =? x)%float = false -> Prim2SF x = S754_nan.
Proof.
  rewrite FloatAxioms.eqb_spec. unfold SFeqb.
  destruct (SFcompare_refl (Prim2SF x)) as [-> | H]; [discriminate | auto].
Qed.

Lemma SFcompare_nan x y :
  SFcompare x y = None <-> x = S754_nan \/ y = S754_nan.
Proof.
  destruct x as [sx|sx| |sx mx ex], y as [sy|sy| |sy my ey]; simpl;
    split; try discriminate; try tauto; try (intros [H|H]; discriminate).
Qed.

(** ** Money: what the value object guarantees *)

Lemma add_same_currency a b :
  Money.wf a -> Money.wf b -> Money.currency a = Money.currency b ->
  Money.add a b = Ok (Money.mk (Money.amount a + Money.amount b) (Money.currency a)).
Proof.
  intros Ha Hb Hc. unfold Money.add, Money.assertSameCurrency.
  rewrite Hc, String.eqb_refl. simpl. rewrite <- Hc.
  apply Money_new_of_wf; [assumption|]. apply add_not_negative; [apply Ha | apply Hb].
Qed.

Lemma multiply_wf m k :
  Money.wf m ->
  Money.multiply m k =
    if (k <? 0)%float then Err InvalidFactor
    else Ok (Money.mk (Math.floor (Money.amount m * k)) (Money.currency m)).
Proof.
  intros Hwf. unfold Money.multiply. destruct (k <? 0)%float eqn:Hk; [reflexivity|].
  apply Money_new_of_wf; [assumption|].
  apply floor_not_negative, mul_not_negative; [apply Hwf | exact Hk].
Qed.

Lemma Money_new_amount a c m :
  Money.new a c = Ok m -> (Money.amount m <? 0)%float = false.
Proof. intros H. now apply Money_new_wf in H as [H _]. Qed.

(** X1. No Money has an amount below zero: on every Money that the
    constructor, add, subtract or multiply returns, whatever their
    arguments, the test amount < 0 fails. The constructor throws
    InvalidAmount exactly on the amounts on which the test holds; NaN, on
    which no comparison holds, is accepted as an amount, and so is -0. *)
Theorem money_is_never_negative (m : Money.t) :
  (forall a c, Money.new a c = Ok m -> (Money.amount m <? 0)%float = false)
  /\ (forall a b, Money.add a b = Ok m -> (Money.amount m <? 0)%float = false)
  /\ (forall a b, Money.subtract a b = Ok m -> (Money.amount m <? 0)%float = false)
  /\ (forall a k, Money.multiply a k = Ok m -> (Money.amount m <? 0)%float = false)
  /\ (forall a c, Money.new a c = Err InvalidAmount <-> (a <? 0)%float = true)
  /\ Money.new nan "JPY" = Ok (yen nan)
  /\ Money.new (-0) "JPY" = Ok (yen (-0)).
Proof.
  split; [|split; [|split; [|split; [|split; [|split; reflexivity]]]]].
  - intros a c. apply Money_new_amount.
  - intros a b. unfold Money.add.
    destruct (Money.assertSameCurrency a b); simpl; [apply Money_new_amount | discriminate].
  - intros a b. unfold Money.subtract.
    destruct (Money.assertSameCurrency a b); simpl; [|discriminate].
    destruct (_ <? 0)%float; [discriminate | apply Money_new_amount].
  - intros a k. unfold Money.multiply.
    destruct (k <? 0)%float; [discriminate | apply Money_new_amount].
  - intros a c. unfold Money.new. destruct (a <? 0)%float; [tauto|].
    destruct (negb _); split; discriminate.
Qed.



(** X3. add is commutative: a.add(b) and b.add(a) return the same Money or
    throw the same error, whatever a and b are. It is not associative, the
    amounts being added as doubles: of 2^53 yen, 1 yen and 1 yen the sum is
    2^53 yen when taken from the left and 2^53 + 2 yen when taken from the
    right. *)
Theorem add_is_commutative_not_associative (a b : Money.t) :
  Money.add a b = Money.add b a
  /\ rbind (Money.add (yen 9007199254740992) (yen 1)) (fun ab => Money.add ab (yen 1))
     = Ok (yen 9007199254740992)
  /\ rbind (Money.add (yen 1) (yen 1)) (fun bc => Money.add (yen 9007199254740992) bc)
     = Ok (yen 9007199254740994).
Proof.
  split; [|split; reflexivity].
  unfold Money.add, Money.assertSameCurrency.
  destruct (String.eqb (Money.currency a) (Money.currency b)) eqn:Hc.
  - apply String.eqb_eq in Hc. rewrite <- Hc, String.eqb_refl. simpl.
    now rewrite float_add_comm.
  - rewrite String.eqb_sym, Hc. reflexivity.
Qed.



(** X6. On two Money values of one currency greaterThan never throws. Of
    "the first is greater", "the second is greater" and "they are equal" at
    most one holds, and exactly one holds unless an amount is NaN, that is,
    unless one of the two does not equal itself: then none of the three
    holds. equals does not depend on the order of its arguments. *)
Theorem greaterThan_or_equal (a b : Money.t) :
  Money.currency a = Money.currency b ->
  exists ab ba,
    Money.greaterThan a b = Ok ab /\ Money.greaterThan b a = Ok ba
    /\ Money.equals a b = Money.equals b a
    /\ ((ab = true /\ ba = false /\ Money.equals a b = false)
        \/ (ab = false /\ ba = true /\ Money.equals a b = false)
        \/ (ab = false /\ ba = false /\ Money.equals a b = true)
        \/ (ab = false /\ ba = false /\ Money.equals a b = false
            /\ (Money.equals a a = false \/ Money.equals b b = false)))
    /\ (Money.equals a a = false \/ Money.equals b b = false ->
        ab = false /\ ba = false /\ Money.equals a b = false).
Proof.
  intros Hc. unfold Money.greaterThan, Money.assertSameCurrency, Money.equals.
  rewrite <- Hc, !String.eqb_refl. simpl. do 2 eexists.
  split; [reflexivity|]. split; [reflexivity|].
  rewrite !andb_true_r.
  assert (Hnan : (Money.amount a =? Money.amount a)%float = false
                 \/ (Money.amount b =? Money.amount b)%float = false ->
                 SFcompare (Prim2SF (Money.amount a)) (Prim2SF (Money.amount b)) = None).
  { intros H. apply SFcompare_nan. destruct H as [H|H]; apply eqb_self_false in H; auto. }
  rewrite (FloatAxioms.ltb_spec (Money.amount b)), (FloatAxioms.ltb_spec (Money.amount a)),
    (FloatAxioms.eqb_spec (Money.amount a) (Money.amount b)),
    (FloatAxioms.eqb_spec (Money.amount b) (Money.amount a)).
  unfold SFltb, SFeqb.
  rewrite (SFcompare_antisym (Prim2SF (Money.amount a)) (Prim2SF (Money.amount b))).
  destruct (SFcompare (Prim2SF (Money.amount a)) (Prim2SF (Money.amount b)))
    as [[]|] eqn:Hcmp; simpl.
  - split; [reflexivity|]. split; [right; right; left; auto|].
    intros H. apply Hnan in H. discriminate.
  - split; [reflexivity|]. split; [right; left; auto|].
    intros H. apply Hnan in H. discriminate.
  - split; [reflexivity|]. split; [left; auto|].
    intros H. apply Hnan in H. discriminate.
  - split; [reflexivity|]. split; [|auto]. right; right; right. repeat split.
    apply SFcompare_nan in Hcmp.
    destruct Hcmp as [H|H]; [left | right];
      rewrite FloatAxioms.eqb_spec, H; reflexivity.
Qed.

Lemma greaterThan_or_equal_witness :
  exists ab ba,
    Money.greaterThan (yen 5001) (yen 5000) = Ok ab
    /\ Money.greaterThan (yen 5000) (yen 5001) = Ok ba
    /\ Money.equals (yen 5001) (yen 5000) = Money.equals (yen 5000) (yen 5001)
    /\ ((ab = true /\ ba = false /\ Money.equals (yen 5001) (yen 5000) = false)
        \/ (ab = false /\ ba = true /\ Money.equals (yen 5001) (yen 5000) = false)
        \/ (ab = false /\ ba = false /\ Money.equals (yen 5001) (yen 5000) = true)
        \/ (ab = false /\ ba = false /\ Money.equals (yen 5001) (yen 5000) = false
            /\ (Money.equals (yen 5001) (yen 5001) = false
                \/ Money.equals (yen 5000) (yen 5000) = false)))
    /\ (Money.equals (yen 5001) (yen 5001) = false
        \/ Money.equals (yen 5000) (yen 5000) = false ->
        ab = false /\ ba = false /\ Money.equals (yen 5001) (yen 5000) = false).
Proof.
  apply (greaterThan_or_equal (yen 5001) (yen 5000)). reflexivity.
Defined.

(** ** OrderItem *)



(** ** Order: the life of an order *)

Lemma call_status c o :
  Order.status (snd (Order.call c o)) = Order.status o
  \/ (fst (Order.call c o) = Ok tt
      /\ allowedEdge (Order.status o) (Order.status (snd (Order.call c o))) = true).
Proof.
  destruct (Order.isMutation c) eqn:Hm.
  - left. apply (mutation_frame c o Hm).
  - destruct c; try discriminate; unfold_method; by_status o;
      try (destruct l; simpl); auto.
Qed.

Lemma off_draft_call c o :
  Order.status o <> Order.DRAFT ->
  Order.items (snd (Order.call c o)) = Order.items o
  /\ Order.totalAmount (snd (Order.call c o)) = Order.totalAmount o
  /\ Order.placedAt (snd (Order.call c o)) = Order.placedAt o
  /\ Order.status (snd (Order.call c o)) <> Order.DRAFT.
Proof.
  intros Hs. destruct (Order.isMutation c) eqn:Hm.
  - destruct (mutation_outcome c o Hm) as [(e & _ & ->)|(Hd & _)]; [auto | contradiction].
  - destruct c; try discriminate; unfold_method; by_status o; repeat split; discriminate.
Qed.

Lemma call_identifiers c o :
  Order.id (snd (Order.call c o)) = Order.id o
  /\ Order.customerId (snd (Order.call c o)) = Order.customerId o.
Proof.
  destruct (Order.isMutation c) eqn:Hm.
  - destruct (mutation_frame c o Hm) as (H1 & H2 & _). auto.
  - destruct c; try discriminate; unfold_method; by_status o;
      try (destruct l; simpl); auto.
Qed.

(** X8. Whatever is called, the status stays as it is or follows one arrow
    of draft -> placed -> paid -> shipped -> delivered, or of draft, placed,
    paid -> cancelled, and it follows an arrow only when the call returns;
    so along any sequence of calls an order never goes back to an earlier
    status. *)
Theorem status_only_moves_forward (o : Order.t) (cs : list Order.Call) :
  (forall c,
     Order.status (snd (Order.call c o)) = Order.status o
     \/ (fst (Order.call c o) = Ok tt
         /\ allowedEdge (Order.status o) (Order.status (snd (Order.call c o))) = true))
  /\ (statusRank (Order.status o) <= statusRank (Order.status (Order.after cs o)))%nat.
Proof.
  split; [intros c; apply call_status|].
  revert o. induction cs as [|c cs IH]; intros o; simpl; [lia|].
  specialize (IH (snd (Order.call c o))). unfold Order.after in IH.
  etransitivity; [|exact IH].
  destruct (call_status c o) as [-> | [_ Hedge]]; [lia|].
  destruct (Order.status o), (Order.status (snd (Order.call c o)));
    simpl in *; try discriminate; lia.
Qed.

(** X9. markAsPaid returns only on a placed order, ship only on a paid one,
    deliver only on a shipped one; each then changes the status and nothing
    else, and otherwise throws InvalidState and changes nothing. A draft
    with at least one item that is placed, paid, shipped and delivered in
    this order ends delivered, with its items and total as they were and the
    timestamp of the place call. *)
Theorem payment_shipping_delivery (o : Order.t) :
  Order.markAsPaid o =
    match Order.status o with
    | Order.PLACED => (Ok tt, withStatus Order.PAID o)
    | _ => (Err InvalidState, o)
    end
  /\ Order.ship o =
    match Order.status o with
    | Order.PAID => (Ok tt, withStatus Order.SHIPPED o)
    | _ => (Err InvalidState, o)
    end
  /\ Order.deliver o =
    match Order.status o with
    | Order.SHIPPED => (Ok tt, withStatus Order.DELIVERED o)
    | _ => (Err InvalidState, o)
    end
  /\ (Order.status o = Order.DRAFT -> Order.items o <> [] ->
      forall now,
        Order.after [Order.Place now; Order.MarkAsPaid; Order.Ship; Order.Deliver] o
        = Order.mk (Order.id o) (Order.customerId o) (Order.items o) Order.DELIVERED
                   (Order.totalAmount o) (Some now)).
Proof.
  unfold withStatus. unfold_method.
  destruct o as [i c l s total placed]. simpl.
  split; [destruct s; reflexivity|]. split; [destruct s; reflexivity|].
  split; [destruct s; reflexivity|].
  intros -> Hl now. destruct l; [contradiction | reflexivity].
Qed.

(** X10. Once an order is off draft, no sequence of calls changes its
    items, its total or its timestamp, and it never becomes a draft again. *)
Theorem order_is_frozen_off_draft (o : Order.t) (cs : list Order.Call) :
  Order.status o <> Order.DRAFT ->
  Order.items (Order.after cs o) = Order.items o
  /\ Order.totalAmount (Order.after cs o) = Order.totalAmount o
  /\ Order.placedAt (Order.after cs o) = Order.placedAt o
  /\ Order.status (Order.after cs o) <> Order.DRAFT.
Proof.
  revert o. induction cs as [|c cs IH]; intros o Hs; [auto|].
  destruct (off_draft_call c o Hs) as (Hi & Ht & Hp & Hs').
  destruct (IH (snd (Order.call c o)) Hs') as (Hi' & Ht' & Hp' & Hs'').
  simpl. unfold Order.after in *. repeat split; congruence.
Qed.

Lemma order_is_frozen_off_draft_witness :
  Order.items
    (Order.after [Order.AddItem P2 1 (yen 300); Order.RemoveItem P1; Order.Cancel]
       (Order.after [Order.AddItem P1 2 (yen 1000); Order.Place 7] order0))
  = Order.items (Order.after [Order.AddItem P1 2 (yen 1000); Order.Place 7] order0).
Proof.
  apply (order_is_frozen_off_draft
           (Order.after [Order.AddItem P1 2 (yen 1000); Order.Place 7] order0)
           [Order.AddItem P2 1 (yen 300); Order.RemoveItem P1; Order.Cancel]).
  discriminate.
Defined.

(** X11. No sequence of calls changes the identifier or the customer
    reference of an order: the order stays equal, by identifier, to what it
    was. *)
Theorem identifiers_never_change (o : Order.t) (cs : list Order.Call) :
  Order.getId (Order.after cs o) = Order.getId o
  /\ Order.getCustomerId (Order.after cs o) = Order.getCustomerId o
  /\ Order.equals (Order.after cs o) o = true.
Proof.
  assert (H : Order.id (Order.after cs o) = Order.id o
              /\ Order.customerId (Order.after cs o) = Order.customerId o).
  { revert o. induction cs as [|c cs IH]; intros o; [auto|].
    destruct (call_identifiers c o) as [H1 H2].
    destruct (IH (snd (Order.call c o))) as [H3 H4].
    simpl. unfold Order.after in *. split; congruence. }
  destruct H as [Hid Hc]. unfold Order.getId, Order.getCustomerId, Order.equals.
  rewrite Hid, Hc. repeat split. unfold OrderId.equals. apply String.eqb_refl.
Qed.

(** X12. The timestamp is written once: when a reachable order has one, the
    order is off draft and every later sequence of calls, another place
    included, leaves that timestamp in place. *)
Theorem timestamp_is_written_once (o : Order.t) (t : Z) (cs : list Order.Call) :
  Order.reachable o ->
  Order.getPlacedAt o = Some t ->
  Order.status o <> Order.DRAFT
  /\ Order.getPlacedAt (Order.after cs o) = Some t.
Proof.
  intros Hr Ht. unfold Order.getPlacedAt in *.
  assert (Hs : Order.status o <> Order.DRAFT).
  { apply reachable_placedHasItems in Hr. unfold placedHasItems in Hr.
    intros Hd. rewrite Hd in Hr. congruence. }
  split; [exact Hs|].
  rewrite <- Ht. clear Hr Ht. revert o Hs.
  induction cs as [|c cs IH]; intros o Hs; [reflexivity|].
  destruct (off_draft_call c o Hs) as (_ & _ & Hp & Hs').
  simpl. unfold Order.after in *. rewrite (IH _ Hs'). exact Hp.
Qed.

Lemma timestamp_is_written_once_witness :
  Order.status (Order.after [Order.AddItem P1 2 (yen 1000); Order.Place 7] order0)
    <> Order.DRAFT
  /\ Order.getPlacedAt
       (Order.after [Order.Place 99; Order.Cancel]
          (Order.after [Order.AddItem P1 2 (yen 1000); Order.Place 7] order0))
     = Some 7.
Proof.
  apply (timestamp_is_written_once
           (Order.after [Order.AddItem P1 2 (yen 1000); Order.Place 7] order0) 7
           [Order.Place 99; Order.Cancel]).
  - apply reachable_after, order0_reachable.
  - reflexivity.
Defined.

(** ** Order: the total and the lines *)

Lemma add_Ok_inv a b m :
  Money.add a b = Ok m ->
  Money.currency a = Money.currency b
  /\ Money.currency m = toUpperCase (Money.currency a)
  /\ Money.wf m.
Proof.
  unfold Money.add, Money.assertSameCurrency.
  destruct (String.eqb (Money.currency a) (Money.currency b)) eqn:Hc; simpl; [|discriminate].
  apply String.eqb_eq in Hc. intros H. split; [exact Hc|].
  split; [|eapply Money_new_wf; eauto].
  unfold Money.new in H.
  destruct (_ <? 0)%float; [discriminate|]. destruct (negb _); [discriminate|].
  injection H as <-. reflexivity.
Qed.

Lemma reduce_subtotals_yen l : forall acc t,
  Money.currency acc = "JPY"%string -> (Money.amount acc <? 0)%float = false ->
  reduce (fun sum item =>
            rbind (OrderItem.getSubtotal item) (fun subtotal => Money.add sum subtotal))
         l acc = Ok t ->
  Money.currency t = "JPY"%string /\ (Money.amount t <? 0)%float = false.
Proof.
  induction l as [|it l IH]; intros acc t Hc Ha; simpl.
  - intros [= <-]. auto.
  - destruct (OrderItem.getSubtotal it) as [sub|]; simpl; [|discriminate].
    destruct (Money.add acc sub) as [acc'|] eqn:Hadd; simpl; [|discriminate].
    apply add_Ok_inv in Hadd as (_ & Hc' & Hwf). rewrite Hc in Hc'.
    apply IH; [exact Hc' | apply Hwf].
Qed.

Lemma sumSubtotals_yen l t :
  Order.sumSubtotals l = Ok t ->
  Money.currency t = "JPY"%string /\ (Money.amount t <? 0)%float = false.
Proof.
  unfold Order.sumSubtotals. simpl. apply reduce_subtotals_yen; reflexivity.
Qed.

Lemma reduce_validLines_yen l : forall acc t,
  Money.currency acc = "JPY"%string ->
  Forall validLine l ->
  reduce (fun sum item =>
            rbind (OrderItem.getSubtotal item) (fun subtotal => Money.add sum subtotal))
         l acc = Ok t ->
  Forall yenLine l.
Proof.
  induction l as [|it l IH]; intros acc t Hc Hl; simpl; [constructor|].
  inversion Hl as [|? ? Hit Hrest]; subst.
  rewrite (getSubtotal_validLine it Hit). simpl.
  destruct (Money.add acc _) as [acc'|] eqn:Hadd; simpl; [|discriminate].
  apply add_Ok_inv in Hadd as (Hsame & Hc' & _). simpl in Hsame.
  rewrite Hc in Hc', Hsame. intros Hred. constructor.
  - destruct Hit as [Hq Hwf]. repeat split; auto; try apply Hwf.
  - eapply IH; eauto.
Qed.

Lemma reduce_validLines_error l : forall acc e,
  Money.wf acc -> Forall validLine l ->
  reduce (fun sum item =>
            rbind (OrderItem.getSubtotal item) (fun subtotal => Money.add sum subtotal))
         l acc = Err e ->
  e = CurrencyMismatch.
Proof.
  induction l as [|it l IH]; intros acc e Hacc Hl; simpl; [discriminate|].
  inversion Hl as [|? ? Hit Hrest]; subst.
  rewrite (getSubtotal_validLine it Hit). simpl.
  destruct (Money.add acc _) as [acc'|e'] eqn:Hadd; simpl.
  - apply IH; [|assumption]. now apply add_Ok_inv in Hadd.
  - intros [= <-]. unfold Money.add, Money.assertSameCurrency in Hadd.
    destruct (negb _); simpl in Hadd; [congruence|].
    rewrite Money_new_of_wf in Hadd; [discriminate | assumption |].
    apply add_not_negative; [apply Hacc | apply (subtotalOf_not_negative it Hit)].
Qed.

Lemma items_change_validLines c l l' :
  items_change c l l' -> validCall c -> Forall validLine l -> Forall validLine l'.
Proof.
  intros H Hc Hl. destruct H.
  - apply find_Some in H0 as [H0 _]. apply Forall_insert; [assumption|].
    split; [assumption|]. apply (Forall_lookup_1 _ _ _ _ Hl H0).
  - apply Forall_app. split; [assumption|]. constructor; [split; assumption | constructor].
  - rewrite splice1_delete. now apply Forall_delete.
  - apply find_Some in H as [H _]. apply Forall_insert; [assumption|].
    split; [assumption|]. apply (Forall_lookup_1 _ _ _ _ Hl H).
Qed.

Lemma call_total_yen c o :
  Money.currency (Order.totalAmount o) = "JPY"%string
  /\ (Money.amount (Order.totalAmount o) <? 0)%float = false ->
  Money.currency (Order.totalAmount (snd (Order.call c o))) = "JPY"%string
  /\ (Money.amount (Order.totalAmount (snd (Order.call c o))) <? 0)%float = false.
Proof.
  intros Ho. destruct (Order.isMutation c) eqn:Hm.
  - destruct (mutation_outcome c o Hm) as [(e & _ & ->)|(_ & l' & _ & ->)]; [exact Ho|].
    rewrite recalculateTotal_eq. simpl.
    destruct (Order.sumSubtotals l') eqn:Hsum; simpl; [|exact Ho].
    now apply sumSubtotals_yen in Hsum.
  - destruct (transition_keeps_items c o Hm) as [_ ->]. exact Ho.
Qed.

Lemma total_is_always_yen_aux o :
  Order.reachable o ->
  Money.currency (Order.totalAmount o) = "JPY"%string
  /\ (Money.amount (Order.totalAmount o) <? 0)%float = false.
Proof.
  induction 1 as [i c o Hnew | c o Hr IH].
  - unfold Order.new in Hnew. simpl in Hnew. injection Hnew as <-. simpl.
    split; reflexivity.
  - now apply call_total_yen.
Qed.

(** X13. The total of every reachable order is an amount in yen that is
    never below zero, also after calls that threw and after prices in other
    currencies were offered: the test amount < 0 fails on it. It need not
    be a number of yen one can pay: a quantity of NaN, which addItem
    accepts, makes the total NaN. *)
Theorem total_is_always_yen (o : Order.t) :
  Order.reachable o ->
  Money.currency (Order.getTotalAmount o) = "JPY"%string
  /\ (Money.amount (Order.getTotalAmount o) <? 0)%float = false
  /\ Money.wf (Order.getTotalAmount o)
  /\ Order.addItem P1 nan (yen 100) order0
     = (Ok tt, Order.mk (OrderId.mk "O1") (CustomerId.mk "C1")
                 [OrderItem.mk P1 nan (yen 100)] Order.DRAFT (yen nan) None).
Proof.
  intros Hr. unfold Order.getTotalAmount.
  pose proof (total_is_always_yen_aux o Hr) as H.
  destruct H as [Hc Ha].
  split; [assumption|]. split; [assumption|]. split; [|reflexivity].
  repeat split; try assumption; rewrite Hc; reflexivity.
Qed.

Lemma total_is_always_yen_witness :
  Money.currency (Order.getTotalAmount
    (Order.after [Order.AddItem P1 1 (yen 100); Order.AddItem P2 1 (usd 5)] order0))
  = "JPY"%string.
Proof.
  apply (total_is_always_yen
           (Order.after [Order.AddItem P1 1 (yen 100); Order.AddItem P2 1 (usd 5)] order0)).
  apply reachable_after, order0_reachable.
Defined.

(** X14. When the lines of an order have quantities and unit prices that
    the constructors accepted, every mutation that returns leaves only
    lines priced in yen and a total that is the sum of the subtotals of the
    lines as the order computes it, whatever the total was before: a
    returned mutation repairs a total that an earlier thrown one left
    behind. *)
Theorem returned_mutation_restores_total (c : Order.Call) (o : Order.t) :
  Order.isMutation c = true ->
  validCall c ->
  Forall validLine (Order.items o) ->
  fst (Order.call c o) = Ok tt ->
  Forall yenLine (Order.items (snd (Order.call c o)))
  /\ Order.totalAmount (snd (Order.call c o))
     = yen (subtotalSum (Order.items (snd (Order.call c o)))).
Proof.
  intros Hm Hc Hl Hok.
  destruct (mutation_outcome c o Hm) as [(e & _ & Hcall)|(_ & l' & Hl' & Hcall)];
    rewrite Hcall in *; [discriminate|].
  rewrite recalculateTotal_eq in *. simpl in *.
  destruct (Order.sumSubtotals l') as [t|] eqn:Hsum; [|discriminate]. simpl.
  assert (Hyen : Forall yenLine l').
  { unfold Order.sumSubtotals in Hsum. simpl in Hsum.
    eapply reduce_validLines_yen; [| |exact Hsum]; [reflexivity|].
    eapply items_change_validLines; eauto. }
  split; [exact Hyen|]. rewrite (sumSubtotals_yenLines l' Hyen) in Hsum. congruence.
Qed.

Lemma returned_mutation_restores_total_witness :
  Forall yenLine (Order.items (snd (Order.call (Order.RemoveItem P2)
    (Order.after [Order.AddItem P1 1 (yen 100); Order.AddItem P2 1 (usd 5)] order0))))
  /\ Order.totalAmount (snd (Order.call (Order.RemoveItem P2)
       (Order.after [Order.AddItem P1 1 (yen 100); Order.AddItem P2 1 (usd 5)] order0)))
     = yen (subtotalSum (Order.items (snd (Order.call (Order.RemoveItem P2)
         (Order.after [Order.AddItem P1 1 (yen 100); Order.AddItem P2 1 (usd 5)] order0))))).
Proof.
  apply (returned_mutation_restores_total (Order.RemoveItem P2)
           (Order.after [Order.AddItem P1 1 (yen 100); Order.AddItem P2 1 (usd 5)] order0)).
  - reflexivity.
  - exact I.
  - repeat constructor.
  - reflexivity.
Defined.

(** X15. A call that throws never changes the status, the identifiers, the
    timestamp or the total. If it threw InvalidState, EmptyOrder,
    ItemNotFound, InvalidQuantity or the line-cap error, the order is
    exactly as before; any other error is a Money error thrown by
    recalculateTotal of a mutation of a draft, after the one change of the
    item list that this mutation makes, and on lines with valid prices it
    is CurrencyMismatch. *)
Theorem thrown_call_changes_at_most_the_items
  (c : Order.Call) (o : Order.t) (e : DomainError) :
  fst (Order.call c o) = Err e ->
  sameFrame o (snd (Order.call c o))
  /\ Order.totalAmount (snd (Order.call c o)) = Order.totalAmount o
  /\ ((raisedBeforeMutation e = true /\ snd (Order.call c o) = o)
      \/ (raisedBeforeMutation e = false /\ moneyError e = true
          /\ Order.isMutation c = true /\ Order.status o = Order.DRAFT
          /\ items_change c (Order.items o) (Order.items (snd (Order.call c o)))
          /\ (validCall c -> Forall validLine (Order.items o) -> e = CurrencyMismatch))).
Proof.
  intros Hfail. destruct (raisedBeforeMutation e) eqn:He.
  - rewrite (guard_failure_leaves_order c o e He Hfail).
    split; [apply sameFrame_refl|]. split; [reflexivity|]. left. auto.
  - destruct (Order.isMutation c) eqn:Hm.
    + destruct (mutation_outcome c o Hm) as [(e' & He' & Hcall)|(Hs & l' & Hl' & Hcall)];
        rewrite Hcall in *; simpl in Hfail; [congruence|].
      rewrite recalculateTotal_eq in *. simpl in *.
      destruct (Order.sumSubtotals l') as [t|e'] eqn:Hsum; simpl in *; [discriminate|].
      injection Hfail as ->.
      split; [repeat split|]. split; [reflexivity|]. right.
      repeat split; try assumption; [eapply sumSubtotals_error; eauto|].
      intros Hc Hl. unfold Order.sumSubtotals in Hsum. simpl in Hsum.
      eapply reduce_validLines_error; [| |exact Hsum].
      * repeat split.
      * eapply items_change_validLines; eauto.
    + exfalso. destruct c; try discriminate; unfold_method; by_status o;
        try (destruct l; simpl in *); try discriminate;
        injection Hfail as <-; discriminate.
Qed.

Lemma thrown_call_changes_at_most_the_items_witness :
  Order.totalAmount (snd (Order.call (Order.AddItem P1 1 (usd 5)) order0))
  = Order.totalAmount order0.
Proof.
  apply (thrown_call_changes_at_most_the_items (Order.AddItem P1 1 (usd 5)) order0
           CurrencyMismatch).
  reflexivity.
Defined.

(** ** Order: how the mutations move the total *)

Lemma recalculateTotal_yenLines l o :
  Forall yenLine l ->
  Order.recalculateTotal (withItems l o)
  = (Ok tt, withTotal (yen (subtotalSum l)) (withItems l o)).
Proof.
  intros Hl. rewrite recalculateTotal_eq. simpl.
  now rewrite (sumSubtotals_yenLines l Hl).
Qed.

(** The sum over a list with one more line at its end is one more
    addition. *)
Lemma subtotalSum_push l it :
  subtotalSum (l ++ [it]) = (subtotalSum l + Money.amount (subtotalOf it))%float.
Proof. unfold subtotalSum. now rewrite fold_left_app. Qed.

Lemma find_from_app_None {A} (f : A -> bool) l x : forall k,
  find_from f l k = None -> f x = true ->
  find_from f (l ++ [x]) k = Some ((k + length l)%nat, x).
Proof.
  induction l as [|y l IH]; intros k Hnone Hx; simpl in *.
  - rewrite Hx, Nat.add_0_r. reflexivity.
  - destruct (f y); [discriminate|]. rewrite (IH (S k) Hnone Hx). do 2 f_equal. lia.
Qed.

Lemma splice1_last {A} (l : list A) x : splice1 (length l) (l ++ [x]) = l.
Proof.
  unfold splice1. rewrite take_app_length.
  rewrite drop_ge; [apply app_nil_r|]. rewrite length_app. simpl. lia.
Qed.

(** X16. On a draft whose lines are priced in yen and whose total is the
    sum of their subtotals, each mutation that passes its guards returns:
    addItem of a product without a line appends the line and adds to the
    total, in one addition, the subtotal of the new line, the product of
    price and quantity rounded down; removeItem takes out the first line of
    the product, and changeItemQuantity sets its quantity, the total being
    summed anew over the lines that result. The other lines stay as and
    where they are. *)
Theorem mutations_move_total_by_subtotal (o : Order.t) (p : ProductId.t) :
  Order.status o = Order.DRAFT ->
  totalIsSum o ->
  (forall q price,
     (length (Order.items o) < Order.maxItems)%nat ->
     find (fun item => OrderItem.hasProduct item p) (Order.items o) = None ->
     validQuantity q -> Money.wf price -> Money.currency price = "JPY"%string ->
     Order.addItem p q price o
     = (Ok tt, withTotal (yen (Money.amount (Order.totalAmount o)
                               + Math.floor (Money.amount price * q)))
                 (withItems (Order.items o ++ [OrderItem.mk p q price]) o)))
  /\ (forall i it,
        find (fun item => OrderItem.hasProduct item p) (Order.items o) = Some (i, it) ->
        Order.removeItem p o
        = (Ok tt, withTotal (yen (subtotalSum (splice1 i (Order.items o))))
                    (withItems (splice1 i (Order.items o)) o)))
  /\ (forall i it q,
        find (fun item => OrderItem.hasProduct item p) (Order.items o) = Some (i, it) ->
        validQuantity q ->
        Order.changeItemQuantity p q o
        = (Ok tt, withTotal (yen (subtotalSum (<[i := withQuantity q it]> (Order.items o))))
                    (withItems (<[i := withQuantity q it]> (Order.items o)) o))).
Proof.
  intros Hs [Hl Ht]. rewrite Ht. simpl. split; [|split].
  - intros q price Hroom Hnone Hq Hwf Hcur.
    rewrite addItem_draft by assumption.
    apply Nat.leb_gt in Hroom. rewrite Hroom, Hnone.
    unfold validQuantity in Hq. rewrite Hq.
    rewrite recalculateTotal_yenLines.
    + now rewrite subtotalSum_push.
    + apply Forall_app. split; [assumption|].
      constructor; [repeat split; simpl; auto; apply Hwf | constructor].
  - intros i it Hfind. rewrite removeItem_draft by assumption. rewrite Hfind.
    apply find_Some in Hfind as [Hi _].
    now rewrite recalculateTotal_yenLines
      by (rewrite splice1_delete; now apply Forall_delete).
  - intros i it q Hfind Hq. rewrite changeItemQuantity_draft by assumption.
    rewrite Hfind. apply find_Some in Hfind as [Hi _].
    unfold validQuantity in Hq. rewrite Hq.
    now rewrite recalculateTotal_yenLines by (now apply yenLines_withQuantity).
Qed.

Lemma mutations_move_total_by_subtotal_witness :
  Order.addItem P2 1.5 (yen 101)
    (Order.after [Order.AddItem P1 2 (yen 1000)] order0)
  = (Ok tt,
     withTotal (yen (2000 + 151))
       (withItems [OrderItem.mk P1 2 (yen 1000); OrderItem.mk P2 1.5 (yen 101)]
          (Order.after [Order.AddItem P1 2 (yen 1000)] order0))).
Proof.
  refine (proj1 (mutations_move_total_by_subtotal
            (Order.after [Order.AddItem P1 2 (yen 1000)] order0)
            P2 _ _) 1.5%float (yen 101) _ _ _ _ _).
  - reflexivity.
  - split; [repeat constructor | reflexivity].
  - vm_compute. lia.
  - reflexivity.
  - reflexivity.
  - repeat split.
  - reflexivity.
Defined.

(** X17. On a draft below the line cap whose lines are priced in yen and
    whose total is their sum, addItem of a product that has no line followed
    by removeItem of that product gives back the very order one started
    from: same lines in the same places, same total. *)
Theorem removeItem_undoes_addItem
  (o : Order.t) (p : ProductId.t) (q : float) (price : Money.t) :
  Order.status o = Order.DRAFT ->
  totalIsSum o ->
  (length (Order.items o) < Order.maxItems)%nat ->
  find (fun item => OrderItem.hasProduct item p) (Order.items o) = None ->
  validQuantity q -> Money.wf price -> Money.currency price = "JPY"%string ->
  fst (Order.addItem p q price o) = Ok tt
  /\ Order.removeItem p (snd (Order.addItem p q price o)) = (Ok tt, o).
Proof.
  intros Hs [Hl Ht] Hroom Hnone Hq Hwf Hcur.
  assert (Hnew : Forall yenLine (Order.items o ++ [OrderItem.mk p q price])).
  { apply Forall_app. split; [assumption|].
    constructor; [repeat split; simpl; auto; apply Hwf | constructor]. }
  rewrite addItem_draft by assumption.
  pose proof Hroom as Hroom'. apply Nat.leb_gt in Hroom'. rewrite Hroom', Hnone.
  unfold validQuantity in Hq. rewrite Hq.
  rewrite recalculateTotal_yenLines by assumption. simpl. split; [reflexivity|].
  rewrite removeItem_draft by (simpl; assumption). simpl.
  unfold find. rewrite (find_from_app_None _ _ (OrderItem.mk p q price) 0%nat Hnone).
  - simpl. rewrite splice1_last.
    rewrite (recalculateTotal_yenLines (Order.items o)) by assumption.
    f_equal. destruct o as [i c l s total placed]. unfold withTotal, withItems. simpl in *.
    now rewrite Ht.
  - apply hasProduct_true. reflexivity.
Qed.

Lemma removeItem_undoes_addItem_witness :
  fst (Order.addItem P2 4 (yen 300) (Order.after [Order.AddItem P1 2 (yen 1000)] order0))
  = Ok tt
  /\ Order.removeItem P2
       (snd (Order.addItem P2 4 (yen 300)
               (Order.after [Order.AddItem P1 2 (yen 1000)] order0)))
     = (Ok tt, Order.after [Order.AddItem P1 2 (yen 1000)] order0).
Proof.
  apply (removeItem_undoes_addItem
           (Order.after [Order.AddItem P1 2 (yen 1000)] order0) P2 4 (yen 300)).
  - reflexivity.
  - split; [repeat constructor | reflexivity].
  - vm_compute. lia.
  - reflexivity.
  - reflexivity.
  - repeat split.
  - reflexivity.
Defined.

(** ** Order: getItems *)

Lemma mapResult_snapshots l :
  Forall validLine l ->
  mapResult (fun item =>
               rbind (OrderItem.getSubtotal item) (fun subtotal =>
               Ok (Order.mkSnapshot (OrderItem.getProductId item) (OrderItem.getQuantity item)
                                    (OrderItem.getUnitPrice item) subtotal))) l
  = Ok (snapshotOf <$> l).
Proof.
  induction 1 as [|it l Hit _ IH]; simpl; [reflexivity|].
  rewrite (getSubtotal_validLine it Hit). simpl. rewrite IH. reflexivity.
Qed.

Lemma snapshotSum_snapshots l : snapshotSum (snapshotOf <$> l) = subtotalSum l.
Proof.
  unfold snapshotSum, subtotalSum. generalize 0%float.
  induction l as [|it l IH]; intros start; [reflexivity|]. simpl. apply IH.
Qed.



(** X19. What the getters report agrees: from a new order, after every
    sequence of public calls whose addItem prices are yen amounts, getItems
    returns as many records as getItemCount counts, and the amounts of
    their subtotals, added to 0 in the order of the records, give the
    amount of getTotalAmount, which is in yen. *)
Theorem reported_total_is_sum_of_reported_lines
  (i : OrderId.t) (c : CustomerId.t) (o : Order.t) (cs : list Order.Call) :
  Order.new i c = Ok o ->
  Forall yenCall cs ->
  exists snapshots,
    Order.getItems (Order.after cs o) = Ok snapshots
    /\ length snapshots = Order.getItemCount (Order.after cs o)
    /\ snapshotSum snapshots = Money.amount (Order.getTotalAmount (Order.after cs o))
    /\ Money.currency (Order.getTotalAmount (Order.after cs o)) = "JPY"%string.
Proof.
  intros Hnew Hcs.
  assert (Ho : totalIsSum o).
  { unfold Order.new in Hnew. simpl in Hnew. injection Hnew as <-.
    split; [constructor | reflexivity]. }
  destruct (totalIsSum_after cs o Ho Hcs) as [Hl Ht].
  exists (snapshotOf <$> Order.items (Order.after cs o)).
  unfold Order.getTotalAmount. rewrite Ht. simpl.
  repeat split.
  - apply mapResult_snapshots. eapply Forall_impl; [exact Hl|].
    intros it (Hq & Hwf & _). split; assumption.
  - apply length_fmap.
  - apply snapshotSum_snapshots.
Qed.

Lemma reported_total_is_sum_of_reported_lines_witness :
  exists snapshots,
    Order.getItems (Order.after [Order.AddItem P1 2 (yen 1000); Order.AddItem P2 1 (yen 300);
                                 Order.ChangeItemQuantity P2 4; Order.RemoveItem P1] order0)
    = Ok snapshots
    /\ length snapshots
       = Order.getItemCount
           (Order.after [Order.AddItem P1 2 (yen 1000); Order.AddItem P2 1 (yen 300);
                         Order.ChangeItemQuantity P2 4; Order.RemoveItem P1] order0)
    /\ snapshotSum snapshots
       = Money.amount (Order.getTotalAmount
           (Order.after [Order.AddItem P1 2 (yen 1000); Order.AddItem P2 1 (yen 300);
                         Order.ChangeItemQuantity P2 4; Order.RemoveItem P1] order0))
    /\ Money.currency (Order.getTotalAmount
         (Order.after [Order.AddItem P1 2 (yen 1000); Order.AddItem P2 1 (yen 300);
                       Order.ChangeItemQuantity P2 4; Order.RemoveItem P1] order0))
       = "JPY"%string.
Proof.
  apply (reported_total_is_sum_of_reported_lines (OrderId.mk "O1") (CustomerId.mk "C1") order0
           [Order.AddItem P1 2 (yen 1000); Order.AddItem P2 1 (yen 300);
            Order.ChangeItemQuantity P2 4; Order.RemoveItem P1]).
  - reflexivity.
  - repeat constructor.
Defined.

(** ** Repository *)

(** X20. In the repository, save replaces what was stored under the
    identifier of the order and touches no other identifier; saving the same
    order twice is saving it once; the size grows by one exactly when the
    identifier was not stored before. *)
Theorem save_overwrites_by_identifier
  (orders : gmap string Order.t) (o : Order.t) :
  (forall o', Order.getId o' = Order.getId o ->
     InMemoryOrderRepository.save o (InMemoryOrderRepository.save o' orders)
     = InMemoryOrderRepository.save o orders)
  /\ InMemoryOrderRepository.save o (InMemoryOrderRepository.save o orders)
     = InMemoryOrderRepository.save o orders
  /\ (forall other, OrderId.equals other (Order.getId o) = false ->
        InMemoryOrderRepository.findById other (InMemoryOrderRepository.save o orders)
        = InMemoryOrderRepository.findById other orders)
  /\ InMemoryOrderRepository.size (InMemoryOrderRepository.save o orders)
     = match InMemoryOrderRepository.findById (Order.getId o) orders with
       | Some _ => InMemoryOrderRepository.size orders
       | None => S (InMemoryOrderRepository.size orders)
       end.
Proof.
  unfold InMemoryOrderRepository.save, InMemoryOrderRepository.findById,
    InMemoryOrderRepository.size.
  split; [|split; [|split]].
  - intros o' ->. apply insert_insert_eq.
  - apply insert_insert_eq.
  - intros other Hne. apply lookup_insert_ne.
    unfold OrderId.equals in Hne. apply String.eqb_neq in Hne.
    unfold OrderId.toString. congruence.
  - rewrite map_size_insert.
    destruct (orders !! OrderId.toString (Order.getId o)); reflexivity.
Qed.

(** X21. delete removes the entry of an identifier and no other: afterwards
    findById of it is absent, findById of any other identifier is as
    before, deleting an absent identifier changes nothing, and deleting
    right after saving under a fresh identifier gives back the repository
    as it was; clear leaves nothing to be found. *)
Theorem delete_removes_by_identifier
  (orders : gmap string Order.t) (id : OrderId.t) :
  InMemoryOrderRepository.findById id (InMemoryOrderRepository.delete id orders) = None
  /\ (forall other, OrderId.equals other id = false ->
        InMemoryOrderRepository.findById other (InMemoryOrderRepository.delete id orders)
        = InMemoryOrderRepository.findById other orders)
  /\ (InMemoryOrderRepository.findById id orders = None ->
      InMemoryOrderRepository.delete id orders = orders)
  /\ (forall o, Order.getId o = id ->
        InMemoryOrderRepository.findById id orders = None ->
        InMemoryOrderRepository.delete id (InMemoryOrderRepository.save o orders) = orders)
  /\ InMemoryOrderRepository.size (InMemoryOrderRepository.delete id orders)
     = match InMemoryOrderRepository.findById id orders with
       | Some _ => pred (InMemoryOrderRepository.size orders)
       | None => InMemoryOrderRepository.size orders
       end
  /\ InMemoryOrderRepository.findById id (InMemoryOrderRepository.clear orders) = None
  /\ InMemoryOrderRepository.size (InMemoryOrderRepository.clear orders) = 0%nat.
Proof.
  unfold InMemoryOrderRepository.save, InMemoryOrderRepository.findById,
    InMemoryOrderRepository.delete, InMemoryOrderRepository.size,
    InMemoryOrderRepository.clear.
  split; [|split; [|split; [|split; [|split; [|split]]]]].
  - apply lookup_delete_eq.
  - intros other Hne. apply lookup_delete_ne.
    unfold OrderId.equals in Hne. apply String.eqb_neq in Hne.
    unfold OrderId.toString. congruence.
  - apply delete_id.
  - intros o <- Hnone. now apply delete_insert_id.
  - rewrite map_size_delete. destruct (orders !! OrderId.toString id); reflexivity.
  - apply lookup_empty.
  - apply map_size_empty.
Qed.

(** *** The order of insertion *)

Lemma JsMap_set_keys {V} key (v : V) m :
  NoDup m.*1 -> NoDup (JsMap.set key v m).*1.
Proof.
  induction m as [|[k old] m IH]; simpl; intros Hnd.
  - repeat constructor. inversion 1.
  - inversion Hnd as [|? ? Hk Hrest]; subst.
    destruct (String.eqb k key) eqn:Heq; simpl; [now constructor|].
    constructor; [|auto]. intros Hin. apply Hk.
    clear -Hin Heq. induction m as [|[k' v'] m IH]; simpl in *.
    + apply list_elem_of_singleton in Hin. subst. now rewrite String.eqb_refl in Heq.
    + destruct (String.eqb k' key); simpl in *; [exact Hin|].
      apply elem_of_cons in Hin as [->|Hin]; [left | right; auto].
Qed.

Lemma JsMap_delete_keys {V} key (m : list (string * V)) :
  NoDup m.*1 -> NoDup (JsMap.delete key m).*1 /\ key ∉ (JsMap.delete key m).*1.
Proof.
  induction m as [|[k v] m IH]; simpl; intros Hnd.
  - split; [constructor | inversion 1].
  - inversion Hnd as [|? ? Hk Hrest]; subst.
    destruct (String.eqb k key) eqn:Heq; simpl.
    + apply String.eqb_eq in Heq. subst. auto.
    + apply String.eqb_neq in Heq. destruct (IH Hrest) as [Hnd' Hnot].
      split.
      * constructor; [|assumption]. intros Hin. apply Hk.
        clear -Hin. induction m as [|[k' v'] m IH]; simpl in *; [inversion Hin|].
        destruct (String.eqb k' key); simpl in *; [now right|].
        apply elem_of_cons in Hin as [->|Hin]; [left | right; auto].
      * intros Hin. apply elem_of_cons in Hin as [->|Hin]; [congruence | auto].
Qed.

Lemma JsMap_set_to_map {V} key (v : V) m :
  list_to_map (JsMap.set key v m) =@{gmap string V} <[key := v]> (list_to_map m).
Proof.
  induction m as [|[k old] m IH]; simpl; [reflexivity|].
  destruct (String.eqb k key) eqn:Heq; simpl.
  - apply String.eqb_eq in Heq. subst. now rewrite insert_insert_eq.
  - apply String.eqb_neq in Heq. rewrite IH. now apply insert_insert_ne.
Qed.

Lemma JsMap_get_to_map {V} key (m : list (string * V)) :
  JsMap.get key m = (list_to_map m : gmap string V) !! key.
Proof.
  induction m as [|[k v] m IH]; simpl; [now rewrite lookup_empty|].
  destruct (String.eqb k key) eqn:Heq.
  - apply String.eqb_eq in Heq. subst. now rewrite lookup_insert_eq.
  - apply String.eqb_neq in Heq. now rewrite lookup_insert_ne.
Qed.

Lemma JsMap_delete_to_map {V} key (m : list (string * V)) :
  NoDup m.*1 ->
  list_to_map (JsMap.delete key m) =@{gmap string V} base.delete key (list_to_map m).
Proof.
  induction m as [|[k v] m IH]; simpl; intros Hnd; [now rewrite delete_empty|].
  inversion Hnd as [|? ? Hk Hrest]; subst.
  destruct (String.eqb k key) eqn:Heq; simpl.
  - apply String.eqb_eq in Heq. subst. rewrite delete_insert_id; [reflexivity|].
    now apply not_elem_of_list_to_map_1.
  - apply String.eqb_neq in Heq. rewrite IH by assumption.
    rewrite delete_insert_ne by congruence. reflexivity.
Qed.

Lemma ordered_call_keys c orders :
  NoDup orders.*1 -> NoDup (OrderedRepository.call c orders).*1.
Proof.
  intros Hnd. destruct c; simpl.
  - now apply JsMap_set_keys.
  - now apply JsMap_delete_keys.
  - constructor.
Qed.

Lemma ordered_after_keys cs : NoDup (OrderedRepository.after cs).*1.
Proof.
  unfold OrderedRepository.after.
  assert (H : forall orders : list (string * Order.t),
            NoDup orders.*1 ->
            NoDup (fold_left (fun orders c => OrderedRepository.call c orders) cs orders).*1).
  { induction cs as [|c cs IH]; intros orders Hnd; simpl; [exact Hnd|].
    apply IH. now apply ordered_call_keys. }
  apply H. constructor.
Qed.

(** X22. The repository read as a finite map is the repository read as the
    sequence of its entries with the order forgotten: for every sequence of
    save, delete and clear calls from the empty repository, each operation
    on the sequence is the operation on the map, findById and size give the
    same answers, and no identifier is stored twice. *)
Theorem ordered_repository_refines_map
  (cs : list OrderedRepository.Call) (o : Order.t) (id : OrderId.t) :
  NoDup (OrderedRepository.after cs).*1
  /\ list_to_map (OrderedRepository.save o (OrderedRepository.after cs))
     = InMemoryOrderRepository.save o (list_to_map (OrderedRepository.after cs))
  /\ list_to_map (OrderedRepository.delete id (OrderedRepository.after cs))
     = InMemoryOrderRepository.delete id (list_to_map (OrderedRepository.after cs))
  /\ list_to_map (OrderedRepository.clear (OrderedRepository.after cs))
     = InMemoryOrderRepository.clear (list_to_map (OrderedRepository.after cs))
  /\ OrderedRepository.findById id (OrderedRepository.after cs)
     = InMemoryOrderRepository.findById id (list_to_map (OrderedRepository.after cs))
  /\ OrderedRepository.size (OrderedRepository.after cs)
     = InMemoryOrderRepository.size
         (list_to_map (OrderedRepository.after cs) : gmap string Order.t).
Proof.
  pose proof (ordered_after_keys cs) as Hnd.
  split; [exact Hnd|]. split; [apply JsMap_set_to_map|].
  split; [now apply JsMap_delete_to_map|]. split; [reflexivity|].
  split; [apply JsMap_get_to_map|].
  unfold OrderedRepository.size, InMemoryOrderRepository.size.
  symmetry. now apply map_size_list_to_map.
Qed.

Lemma JsMap_get_elem_of {V} (m : list (string * V)) v :
  NoDup m.*1 -> (v ∈ JsMap.values m <-> exists key, JsMap.get key m = Some v).
Proof.
  intros Hnd. unfold JsMap.values. split.
  - intros Hin. apply list_elem_of_fmap in Hin as ([k v'] & -> & Hin). simpl.
    exists k. rewrite JsMap_get_to_map. now apply elem_of_list_to_map_1.
  - intros [key Hget]. rewrite JsMap_get_to_map in Hget.
    apply elem_of_list_to_map_2 in Hget. apply list_elem_of_fmap. now exists (key, v).
Qed.

Lemma JsMap_set_fresh {V} key (v : V) m :
  JsMap.get key m = None -> JsMap.set key v m = m ++ [(key, v)].
Proof.
  induction m as [|[k old] m IH]; simpl; [reflexivity|].
  destruct (String.eqb k key); [discriminate|]. intros H. now rewrite IH.
Qed.

Lemma JsMap_set_stored {V} key (v old : V) m : forall i,
  NoDup m.*1 -> m !! i = Some (key, old) ->
  JsMap.set key v m = <[i := (key, v)]> m.
Proof.
  induction m as [|[k x] m IH]; intros i Hnd Hi; [discriminate|].
  inversion Hnd as [|? ? Hk Hrest]; subst. simpl.
  destruct (String.eqb k key) eqn:Heq.
  - apply String.eqb_eq in Heq. subst k. destruct i as [|i]; [reflexivity|].
    exfalso. apply Hk. simpl in Hi.
    apply list_elem_of_fmap. exists (key, old). split; [reflexivity|].
    eapply list_elem_of_lookup_2; eauto.
  - destruct i as [|i]; simpl in *.
    + injection Hi as -> ->. now rewrite String.eqb_refl in Heq.
    + now rewrite (IH i Hrest Hi).
Qed.

Lemma JsMap_delete_filter {V} key (m : list (string * V)) :
  NoDup m.*1 ->
  JsMap.delete key m = List.filter (fun entry => negb (String.eqb (fst entry) key)) m.
Proof.
  induction m as [|[k x] m IH]; intros Hnd; [reflexivity|].
  inversion Hnd as [|? ? Hk Hrest]; subst. simpl.
  destruct (String.eqb k key) eqn:Heq; simpl; [|now rewrite IH].
  apply String.eqb_eq in Heq. subst k.
  clear IH Hnd Hrest. induction m as [|[k' x'] m IH]; [reflexivity|]. simpl in *.
  destruct (String.eqb k' key) eqn:Heq'; simpl.
  - apply String.eqb_eq in Heq'. subst. exfalso. apply Hk. left.
  - f_equal. apply IH. intros Hin. apply Hk. now right.
Qed.

(** X23. findByCustomerId returns exactly the stored orders whose customer
    reference equals the given one, in the order of the entries of the map,
    which is the order in which their identifiers were first saved: a save
    under an identifier that is not stored puts the order at the end, a
    save under a stored identifier puts the order where the earlier one
    stood and moves nothing, and a delete takes one entry out and leaves
    the others in their order. *)
Theorem findByCustomerId_finds_the_customers_orders
  (cs : list OrderedRepository.Call) (customer : CustomerId.t) (o : Order.t) :
  (o ∈ OrderedRepository.findByCustomerId customer (OrderedRepository.after cs)
   <-> (exists id, OrderedRepository.findById id (OrderedRepository.after cs) = Some o)
       /\ CustomerId.equals (Order.getCustomerId o) customer = true)
  /\ (OrderedRepository.findById (Order.getId o) (OrderedRepository.after cs) = None ->
      OrderedRepository.save o (OrderedRepository.after cs)
      = OrderedRepository.after cs ++ [(OrderId.toString (Order.getId o), o)]
      /\ OrderedRepository.findByCustomerId customer
           (OrderedRepository.save o (OrderedRepository.after cs))
         = OrderedRepository.findByCustomerId customer (OrderedRepository.after cs)
           ++ (if CustomerId.equals (Order.getCustomerId o) customer then [o] else []))
  /\ (forall i old,
        OrderedRepository.after cs !! i = Some (OrderId.toString (Order.getId o), old) ->
        OrderedRepository.save o (OrderedRepository.after cs)
        = <[i := (OrderId.toString (Order.getId o), o)]> (OrderedRepository.after cs)
        /\ OrderedRepository.findByCustomerId customer
             (OrderedRepository.save o (OrderedRepository.after cs))
           = List.filter
               (fun order => CustomerId.equals (Order.getCustomerId order) customer)
               (<[i := o]> (JsMap.values (OrderedRepository.after cs))))
  /\ (forall id,
        OrderedRepository.delete id (OrderedRepository.after cs)
        = List.filter (fun entry => negb (String.eqb (fst entry) (OrderId.toString id)))
                      (OrderedRepository.after cs)).
Proof.
  pose proof (ordered_after_keys cs) as Hnd.
  unfold OrderedRepository.findByCustomerId, OrderedRepository.findById,
    OrderedRepository.save, OrderedRepository.delete.
  split; [|split; [|split]].
  - rewrite list_elem_of_In, filter_In, <- list_elem_of_In.
    rewrite (JsMap_get_elem_of _ o Hnd). split.
    + intros [[key Hkey] Hc]. split; [|exact Hc].
      exists (OrderId.mk key). exact Hkey.
    + intros [[id Hid] Hc]. split; [|exact Hc]. eauto.
  - intros Hfresh. rewrite (JsMap_set_fresh _ _ _ Hfresh). split; [reflexivity|].
    unfold JsMap.values. rewrite map_app, List.filter_app. simpl.
    destruct (CustomerId.equals (Order.getCustomerId o) customer); reflexivity.
  - intros i old Hi. rewrite (JsMap_set_stored _ o old _ i Hnd Hi). split; [reflexivity|].
    unfold JsMap.values. f_equal.
    change (map snd) with (fmap (M:=list) (@snd string Order.t)).
    now rewrite list_fmap_insert.
  - intros id. now apply JsMap_delete_filter.
Qed.

(** ** PricingService *)

Lemma shipping_fee_by_threshold_aux (o : Order.t) :
  Order.reachable o ->
  PricingService.calculateShippingFee o
  = Ok (if (5000 <? Money.amount (Order.getTotalAmount o))%float then yen 0 else yen 500).
Proof.
  intros Hr. destruct (total_is_always_yen_aux o Hr) as [Hc _].
  unfold PricingService.calculateShippingFee, Order.getTotalAmount in *.
  destruct (Order.totalAmount o) as [a cur]. simpl in Hc. subst cur.
  replace (Money.fromYen 5000) with (Ok (yen 5000)) by reflexivity.
  replace (Money.fromYen 500) with (Ok (yen 500)) by reflexivity.
  replace (Money.zero "JPY") with (Ok (yen 0)) by reflexivity.
  cbn -[PrimFloat.ltb]. destruct (5000 <? a)%float; reflexivity.
Qed.

(** X24. On a reachable order calculateShippingFee never throws: the fee is
    0 yen when the total is more than 5000 yen and 500 yen otherwise, a
    total of exactly 5000 yen included. *)
Theorem shipping_fee_by_threshold (o : Order.t) :
  Order.reachable o ->
  PricingService.calculateShippingFee o
  = Ok (if (5000 <? Money.amount (Order.getTotalAmount o))%float then yen 0 else yen 500).
Proof. apply shipping_fee_by_threshold_aux. Qed.

Lemma shipping_fee_by_threshold_witness :
  PricingService.calculateShippingFee
    (Order.after [Order.AddItem P1 5 (yen 1000)] order0)
  = Ok (if (5000 <? Money.amount (Order.getTotalAmount
                      (Order.after [Order.AddItem P1 5 (yen 1000)] order0)))%float
        then yen 0 else yen 500).
Proof.
  apply (shipping_fee_by_threshold (Order.after [Order.AddItem P1 5 (yen 1000)] order0)).
  apply reachable_after, order0_reachable.
Defined.

Lemma SFmul_zero x : zeroOrNaN (SFmul prec emax x (S754_zero false)).
Proof. destruct x; exact I. Qed.

Lemma floor_zeroOrNaN x : zeroOrNaN (Prim2SF x) -> Math.floor x = x.
Proof. unfold Math.floor. destruct (Prim2SF x); try reflexivity. contradiction. Qed.

(** What the constant discount rate makes of a total: zero, or NaN. *)
Lemma discount_zeroOrNaN t : zeroOrNaN (Prim2SF (Math.floor (t * 0))).
Proof.
  assert (H : zeroOrNaN (Prim2SF (t * 0)))
    by (rewrite FloatAxioms.mul_spec; apply SFmul_zero).
  now rewrite (floor_zeroOrNaN _ H).
Qed.

(** X25. On a reachable order calculateDiscount and calculateFinalAmount
    never throw. The discount is 0 yen for a customer that is not active
    and, for an active one, the total times the constant rate 0, rounded
    down; the final amount is the total minus the discount, plus the
    shipping fee, each step rounded as a double is. The result need not be
    a number: once an infinite quantity was added, the final amount of an
    active customer is NaN. *)
Theorem final_amount_is_total_plus_shipping (o : Order.t) (customer : Customer.t) :
  Order.reachable o ->
  let total := Money.amount (Order.getTotalAmount o) in
  let discount :=
    if Customer.isActive customer then Math.floor (total * 0) else 0%float in
  let shipping := if (5000 <? total)%float then 0%float else 500%float in
  PricingService.calculateDiscount customer o = Ok (yen discount)
  /\ PricingService.calculateFinalAmount customer o
     = Ok (yen (total - discount + shipping))
  /\ PricingService.calculateFinalAmount
       (Customer.new (CustomerId.mk "C1") "Taro" (Email.mk "taro@example.com"))
       (Order.after [Order.AddItem P1 infinity (yen 1000)] order0)
     = Ok (yen nan).
Proof.
  intros Hr total discount shipping.
  pose proof (shipping_fee_by_threshold_aux o Hr) as Hship.
  destruct (total_is_always_yen_aux o Hr) as [Hc Ha].
  unfold PricingService.calculateFinalAmount, PricingService.calculateDiscount,
    Order.getTotalAmount in *.
  rewrite Hship. clear Hship.
  subst total discount shipping.
  destruct (Order.totalAmount o) as [a cur]. simpl in Hc, Ha. subst cur.
  change (Money.mk a "JPY") with (yen a). cbn [Money.amount yen].
  set (d := if Customer.isActive customer then Math.floor (a * 0) else 0%float).
  assert (Hd : (if negb (Customer.isActive customer) then Money.zero "JPY"
                else Money.multiply (yen a) 0) = Ok (yen d)).
  { unfold d. destruct (Customer.isActive customer); [|reflexivity]. simpl.
    rewrite multiply_wf by (repeat split; assumption). reflexivity. }
  assert (Hdz : zeroOrNaN (Prim2SF d)).
  { unfold d. destruct (Customer.isActive customer); [apply discount_zeroOrNaN | exact I]. }
  pose proof (sub_zero_not_negative a d Ha Hdz) as Hsub0.
  assert (Hsub : Money.subtract (yen a) (yen d) = Ok (yen (a - d))).
  { unfold Money.subtract, Money.new. simpl. now rewrite Hsub0. }
  cbv zeta. rewrite Hd. cbn [rbind]. split; [reflexivity|]. split; [|reflexivity].
  rewrite Hsub. cbn [rbind].
  destruct (5000 <? a)%float; apply add_yen; apply add_not_negative; auto.
Qed.

Lemma final_amount_is_total_plus_shipping_witness :
  PricingService.calculateFinalAmount
    (Customer.new (CustomerId.mk "C1") "Taro" (Email.mk "taro@example.com"))
    (Order.after [Order.AddItem P1 5 (yen 1000)] order0)
  = Ok (yen 5500).
Proof.
  refine (proj1 (proj2 (final_amount_is_total_plus_shipping
           (Order.after [Order.AddItem P1 5 (yen 1000)] order0)
           (Customer.new (CustomerId.mk "C1") "Taro" (Email.mk "taro@example.com")) _))).
  apply reachable_after, order0_reachable.
Defined.

(** ** Customer *)

Ltac by_customer cu :=
  destruct cu as [cid cname cemail cstatus cpoints]; simpl in *.

Lemma customer_call_keeps c cu :
  (Customer.loyaltyPoints cu <? 0)%float = false ->
  Customer.status cu <> Customer.INACTIVE ->
  (Customer.loyaltyPoints (snd (Customer.call c cu)) <? 0)%float = false
  /\ Customer.status (snd (Customer.call c cu)) <> Customer.INACTIVE
  /\ Customer.id (snd (Customer.call c cu)) = Customer.id cu.
Proof.
  intros Hp Hs. by_customer cu.
  destruct c; simpl;
    unfold Customer.changeEmail, Customer.changeName, Customer.addLoyaltyPoints,
      Customer.useLoyaltyPoints, Customer.suspend, Customer.activate; simpl.
  - destruct (Email.equals cemail newEmail); [auto|].
    destruct (Customer.status_eqb cstatus Customer.SUSPENDED); auto.
  - destruct (is_blank newName); auto.
  - destruct (points <=? 0)%float eqn:Hle; [auto|].
    destruct (negb (Customer.status_eqb cstatus Customer.ACTIVE)); [auto|].
    simpl. repeat split; auto.
    apply add_not_negative; [assumption | now apply leb_zero_ltb].
  - destruct (points <=? 0)%float eqn:Hle; [auto|].
    destruct (cpoints <? points)%float eqn:Hlt; [auto|].
    simpl. repeat split; auto. now apply sub_not_negative.
  - destruct (Customer.status_eqb cstatus Customer.SUSPENDED); simpl;
      repeat split; auto; discriminate.
  - destruct (Customer.status_eqb cstatus Customer.ACTIVE); simpl;
      repeat split; auto; discriminate.
Qed.

Lemma customer_thrown_call c cu e :
  fst (Customer.call c cu) = Some e -> snd (Customer.call c cu) = cu.
Proof.
  by_customer cu.
  destruct c; simpl;
    unfold Customer.changeEmail, Customer.changeName, Customer.addLoyaltyPoints,
      Customer.useLoyaltyPoints, Customer.suspend, Customer.activate; simpl;
    repeat (match goal with
            | |- context [if ?b then _ else _] => destruct b; simpl
            end); try reflexivity; discriminate.
Qed.

(** X26. Whatever sequence of calls a customer has received since it was
    constructed, its loyalty points are never below zero (the test
    points < 0 fails on them), its status is active or suspended, never
    inactive, its identifier is the one it was constructed with, and a call
    that throws leaves it exactly as it was. The points need not be a
    number: addLoyaltyPoints accepts NaN, on which points <= 0 does not
    hold, and the balance is NaN from then on. *)
Theorem customer_points_never_negative
  (id : CustomerId.t) (name : string) (email : Email.t) (cs : list Customer.Call) :
  (Customer.getLoyaltyPoints (Customer.after cs (Customer.new id name email)) <? 0)%float
    = false
  /\ Customer.getStatus (Customer.after cs (Customer.new id name email)) <> Customer.INACTIVE
  /\ Customer.getId (Customer.after cs (Customer.new id name email)) = id
  /\ (forall c e,
        fst (Customer.call c (Customer.after cs (Customer.new id name email))) = Some e ->
        snd (Customer.call c (Customer.after cs (Customer.new id name email)))
        = Customer.after cs (Customer.new id name email))
  /\ Customer.after [Customer.AddLoyaltyPoints nan; Customer.AddLoyaltyPoints 10;
                     Customer.UseLoyaltyPoints 5] (Customer.new id name email)
     = Customer.mk id name email Customer.ACTIVE nan.
Proof.
  unfold Customer.getLoyaltyPoints, Customer.getStatus, Customer.getId.
  assert (H : forall cu,
            (Customer.loyaltyPoints cu <? 0)%float = false ->
            Customer.status cu <> Customer.INACTIVE ->
            (Customer.loyaltyPoints (Customer.after cs cu) <? 0)%float = false
            /\ Customer.status (Customer.after cs cu) <> Customer.INACTIVE
            /\ Customer.id (Customer.after cs cu) = Customer.id cu).
  { induction cs as [|c cs IH]; intros cu Hp Hs; [auto|].
    destruct (customer_call_keeps c cu Hp Hs) as (Hp' & Hs' & Hid).
    destruct (IH _ Hp' Hs') as (Hp'' & Hs'' & Hid'').
    simpl. unfold Customer.after in *. repeat split; congruence. }
  destruct (H (Customer.new id name email)) as (Hp & Hs & Hid);
    [reflexivity | discriminate |].
  repeat split; try assumption. intros c e. apply customer_thrown_call.
Qed.

(** X28. suspend and activate never throw and change the status only; a
    second suspend or activate changes nothing, and activate after suspend
    gives an active customer. While a customer is suspended, changeEmail to
    an address other than the current one throws SuspendedCustomer, but
    changeEmail to the current address returns without a change; for a
    customer that is not suspended changeEmail sets the address. *)
Theorem suspension_and_email (cu : Customer.t) (newEmail : Email.t) :
  Customer.suspend cu
    = (None, Customer.mk (Customer.id cu) (Customer.name cu) (Customer.email cu)
               Customer.SUSPENDED (Customer.loyaltyPoints cu))
  /\ Customer.activate cu
    = (None, Customer.mk (Customer.id cu) (Customer.name cu) (Customer.email cu)
               Customer.ACTIVE (Customer.loyaltyPoints cu))
  /\ Customer.suspend (snd (Customer.suspend cu)) = Customer.suspend cu
  /\ Customer.activate (snd (Customer.suspend cu)) = Customer.activate cu
  /\ Customer.changeEmail newEmail cu
    = if Email.equals (Customer.email cu) newEmail then (None, cu)
      else match Customer.status cu with
           | Customer.SUSPENDED => (Some Customer.SuspendedCustomer, cu)
           | _ => (None, Customer.mk (Customer.id cu) (Customer.name cu) newEmail
                           (Customer.status cu) (Customer.loyaltyPoints cu))
           end.
Proof.
  by_customer cu.
  unfold Customer.suspend, Customer.activate, Customer.changeEmail. simpl.
  destruct cstatus; simpl; repeat split;
    destruct (Email.equals cemail newEmail); reflexivity.
Qed.

(** ** Email *)

Lemma append_nil b : String.append EmptyString b = b.
Proof. reflexivity. Qed.

Lemma append_cons c a b : String.append (String c a) b = String c (String.append a b).
Proof. reflexivity. Qed.

Ltac string_simpl := simpl; rewrite ?append_cons, ?append_nil; simpl.

Lemma all_plain_app a b :
  Email.all_plain (String.append a b) = Email.all_plain a && Email.all_plain b.
Proof.
  induction a as [|c a IH]; string_simpl; [reflexivity|]. rewrite IH. apply andb_assoc.
Qed.

Lemma plain_not_at c : Email.plain c = true -> Ascii.eqb c "@" = false.
Proof.
  unfold Email.plain. rewrite andb_true_iff, !negb_true_iff. now intros [_ H].
Qed.

Lemma at_first_at_app a r :
  Email.all_plain a = true ->
  Email.at_first_at (String.append a (String "@" r)) = Some (a, r).
Proof.
  induction a as [|c a IH]; string_simpl; [reflexivity|].
  rewrite andb_true_iff. intros [Hc Ha].
  rewrite (plain_not_at c Hc), (IH Ha). reflexivity.
Qed.

Lemma at_first_at_Some s : forall a r,
  Email.at_first_at s = Some (a, r) -> s = String.append a (String "@" r).
Proof.
  induction s as [|c s IH]; intros a r; simpl; [discriminate|].
  destruct (Ascii.eqb c "@") eqn:Hc.
  - intros [= <- <-]. apply Ascii.eqb_eq in Hc. subst. reflexivity.
  - destruct (Email.at_first_at s) as [[a' r']|]; [|discriminate].
    intros [= <- <-]. rewrite append_cons. f_equal. now apply IH.
Qed.

Lemma dot_then_more_app x y :
  y <> EmptyString -> Email.dot_then_more (String.append x (String "." y)) = true.
Proof.
  intros Hy. induction x as [|c x IH]; string_simpl.
  - destruct y; [contradiction | reflexivity].
  - rewrite IH. apply orb_true_r.
Qed.

Lemma dot_then_more_Some s :
  Email.dot_then_more s = true ->
  exists x y, s = String.append x (String "." y) /\ y <> EmptyString.
Proof.
  induction s as [|c s IH]; simpl; [discriminate|].
  rewrite orb_true_iff, andb_true_iff, negb_true_iff.
  intros [[Hc Hs] | H].
  - apply Ascii.eqb_eq in Hc. subst c. exists EmptyString, s. split; [reflexivity|].
    intros ->. discriminate.
  - destruct (IH H) as (x & y & -> & Hy). exists (String c x), y. auto.
Qed.

Lemma email_accepts_local_at_name_dot_rest_aux (s : string) :
  Email.isValid s = true
  <-> exists local name rest,
        s = String.append local (String "@" (String.append name (String "." rest)))
        /\ local <> EmptyString /\ name <> EmptyString /\ rest <> EmptyString
        /\ Email.all_plain local = true /\ Email.all_plain name = true
        /\ Email.all_plain rest = true.
Proof.
  unfold Email.isValid. split.
  - destruct (Email.at_first_at s) as [[local domain]|] eqn:Hat; [|discriminate].
    apply at_first_at_Some in Hat. subst s.
    rewrite !andb_true_iff, negb_true_iff. intros [[[Hne Hlocal] Hdomain] Hdot].
    destruct domain as [|c0 tail]; [discriminate|].
    apply dot_then_more_Some in Hdot as (x & y & -> & Hy).
    exists local, (String c0 x), y.
    rewrite <- append_cons in Hdomain.
    rewrite all_plain_app in Hdomain. simpl in Hdomain.
    rewrite !andb_true_iff in Hdomain. destruct Hdomain as [[Hc0 Hx] Hyp].
    repeat split; try assumption.
    + intros ->. discriminate.
    + discriminate.
    + simpl. now rewrite Hc0, Hx.
  - intros (local & name & rest & -> & Hl & Hn & Hr & Hpl & Hpn & Hpr).
    rewrite (at_first_at_app local _ Hpl).
    rewrite all_plain_app. simpl. rewrite Hpl, Hpn, Hpr. simpl.
    destruct local; [contradiction|]. simpl.
    destruct name as [|c0 x]; [contradiction|]. rewrite append_cons.
    now apply dot_then_more_app.
Qed.

(** X29. The Email constructor accepts exactly the strings of the form
    local@name.rest in which local, name and rest are not empty and hold
    neither white space nor a further [@]: this is the language of the
    pattern the source tests. *)
Theorem email_accepts_local_at_name_dot_rest (s : string) :
  Email.isValid s = true
  <-> exists local name rest,
        s = String.append local (String "@" (String.append name (String "." rest)))
        /\ local <> EmptyString /\ name <> EmptyString /\ rest <> EmptyString
        /\ Email.all_plain local = true /\ Email.all_plain name = true
        /\ Email.all_plain rest = true.
Proof. apply email_accepts_local_at_name_dot_rest_aux. Qed.

Lemma lower_ascii_plain c : Email.plain (lower_ascii c) = Email.plain c.
Proof. destruct c as [[] [] [] [] [] [] [] []]; reflexivity. Qed.

Lemma lower_ascii_at c : Ascii.eqb (lower_ascii c) "@" = Ascii.eqb c "@".
Proof. destruct c as [[] [] [] [] [] [] [] []]; reflexivity. Qed.

Lemma lower_ascii_dot c : Ascii.eqb (lower_ascii c) "." = Ascii.eqb c ".".
Proof. destruct c as [[] [] [] [] [] [] [] []]; reflexivity. Qed.

Lemma lower_ascii_idem c : lower_ascii (lower_ascii c) = lower_ascii c.
Proof. destruct c as [[] [] [] [] [] [] [] []]; reflexivity. Qed.

Lemma toLowerCase_idem s : toLowerCase (toLowerCase s) = toLowerCase s.
Proof. induction s as [|c s IH]; simpl; [|rewrite lower_ascii_idem, IH]; reflexivity. Qed.

Lemma toLowerCase_app a b :
  toLowerCase (String.append a b) = String.append (toLowerCase a) (toLowerCase b).
Proof. induction a as [|c a IH]; string_simpl; [|rewrite IH]; reflexivity. Qed.

Lemma all_plain_lower s : Email.all_plain (toLowerCase s) = Email.all_plain s.
Proof. induction s as [|c s IH]; simpl; [|rewrite lower_ascii_plain, IH]; reflexivity. Qed.

Lemma toLowerCase_empty s : toLowerCase s = EmptyString <-> s = EmptyString.
Proof. destruct s; simpl; split; congruence. Qed.

Lemma isValid_lower s : Email.isValid s = true -> Email.isValid (toLowerCase s) = true.
Proof.
  rewrite !email_accepts_local_at_name_dot_rest_aux.
  intros (local & name & rest & -> & Hl & Hn & Hr & Hpl & Hpn & Hpr).
  exists (toLowerCase local), (toLowerCase name), (toLowerCase rest).
  rewrite !all_plain_lower, !toLowerCase_empty.
  repeat split; try assumption.
  rewrite toLowerCase_app. simpl. rewrite toLowerCase_app. reflexivity.
Qed.

Lemma split_plain r : Email.all_plain r = true -> split "@" r = [r].
Proof.
  induction r as [|c r IH]; simpl; [reflexivity|].
  rewrite andb_true_iff. intros [Hc Hr].
  rewrite (plain_not_at c Hc), (IH Hr). reflexivity.
Qed.

Lemma split_at_first a r :
  Email.all_plain a = true -> Email.all_plain r = true ->
  split "@" (String.append a (String "@" r)) = [a; r].
Proof.
  intros Ha Hr. induction a as [|c a IH]; string_simpl.
  - now rewrite (split_plain r Hr).
  - simpl in Ha. rewrite andb_true_iff in Ha. destruct Ha as [Hc Ha].
    rewrite (plain_not_at c Hc), (IH Ha). reflexivity.
Qed.

(** X30. An Email the constructor returns holds the given string in lower
    case, so that two strings that differ in case only give equal Emails;
    building an Email again from its toString gives the same Email; and
    its string is getLocalPart, an [@], and getDomain, where the local part
    is not empty and the domain holds a dot. *)
Theorem email_is_lower_case_local_at_domain (v : string) (e : Email.t) :
  Email.new v = Some e ->
  Email.toString e = toLowerCase v
  /\ Email.new (Email.toString e) = Some e
  /\ (forall v' e', toLowerCase v' = toLowerCase v -> Email.new v' = Some e' ->
        Email.equals e e' = true)
  /\ exists domain,
       Email.getDomain e = Some domain
       /\ Email.toString e = String.append (Email.getLocalPart e) (String "@" domain)
       /\ Email.getLocalPart e <> EmptyString
       /\ Email.all_plain (Email.getLocalPart e) = true
       /\ Email.all_plain domain = true
       /\ exists name rest, domain = String.append name (String "." rest)
                            /\ name <> EmptyString /\ rest <> EmptyString.
Proof.
  unfold Email.new. destruct (Email.isValid v) eqn:Hv; simpl; [|discriminate].
  intros [= <-]. unfold Email.toString, Email.getDomain, Email.getLocalPart. simpl.
  pose proof (isValid_lower v Hv) as Hlow.
  split; [reflexivity|]. split; [|split].
  - unfold Email.new. simpl. rewrite Hlow. simpl. now rewrite toLowerCase_idem.
  - intros v' e' Heq. unfold Email.new. destruct (Email.isValid v'); simpl; [|discriminate].
    intros [= <-]. unfold Email.equals. simpl. rewrite Heq. apply String.eqb_refl.
  - apply email_accepts_local_at_name_dot_rest_aux in Hlow
      as (local & name & rest & Hs & Hl & Hn & Hr & Hpl & Hpn & Hpr).
    rewrite Hs.
    assert (Hdom : Email.all_plain (String.append name (String "." rest)) = true).
    { rewrite all_plain_app. simpl. now rewrite Hpn, Hpr. }
    rewrite (split_at_first local _ Hpl Hdom). simpl.
    exists (String.append name (String "." rest)).
    repeat split; try assumption. eauto.
Qed.

Lemma email_is_lower_case_local_at_domain_witness :
  Email.toString (Email.mk "taro@example.com") = toLowerCase "Taro@Example.COM".
Proof.
  apply (email_is_lower_case_local_at_domain "Taro@Example.COM" (Email.mk "taro@example.com")).
  reflexivity.
Defined.
